(** * pg_retire: the liveness watchdog of a PostgreSQL backend

    A shallow embedding of [pg_retire.c].  The module arms a one-shot timer;
    when the timer fires, [pg_retire_alarm_handler] writes a small dummy
    message to the client socket and, if the write fails for good, sends
    SIGINT to the backend so that the running statement is cancelled.

    C integers are [Z] with their conversions written out, bytes are [Z] in
    [0, 256), the process state is a record threaded through the functions,
    and everything the module does to the outside world (socket writes,
    signals, timer requests, signal-mask changes) is appended to a trace.
    Log lines ([ereport] at DEBUG3 and WARNING) are not recorded.  Loops
    that may not end take fuel and answer [None] when it runs out. *)

From Stdlib Require Import ZArith List Bool Lia String Ascii.
Import ListNotations.
Open Scope Z_scope.

(** ** C integer types (LP64) *)

Module CInt.

Definition INT_MAX : Z := 2147483647.
Definition INT_MIN : Z := -2147483648.
Definition SIZE_MAX : Z := 18446744073709551615.
Definition PTRDIFF_MAX : Z := 9223372036854775807.

(** Conversion of a value to [int] (32-bit two's complement). *)
Definition to_int (x : Z) : Z := (x + 2147483648) mod 4294967296 - 2147483648.

(** Conversion of a value to [size_t] (64-bit unsigned). *)
Definition to_size_t (x : Z) : Z := x mod 18446744073709551616.

(** Conversion of a value to [uint32]. *)
Definition to_uint32 (x : Z) : Z := x mod 4294967296.

Definition in_int (x : Z) : Prop := INT_MIN <= x <= INT_MAX.

End CInt.

(** ** Byte sequences *)

Definition byte_of_ascii (a : ascii) : Z := Z.of_nat (nat_of_ascii a).

(** The bytes of a C string literal, terminating NUL included: what
    [sizeof] counts and what the copy loop reads. *)
Definition cstring (s : string) : list Z :=
  map byte_of_ascii (list_ascii_of_string s) ++ [0].

Definition sizeof_lit (s : string) : Z := Z.of_nat (List.length (cstring s)).

(** [*p = b] for [p = base + i]; a store outside the array is not defined by
    C and is dropped here. *)
Definition store (l : list Z) (i : nat) (b : Z) : list Z :=
  if Nat.ltb i (List.length l) then firstn i l ++ b :: skipn (S i) l else l.

(** [sub_bytes l off n]: the [n] bytes at [l + off]. *)
Definition sub_bytes (l : list Z) (off n : Z) : list Z :=
  firstn (Z.to_nat n) (skipn (Z.to_nat off) l).

(** ** The probe buffer *)

Definition WBUFSIZE : Z := 128.

Record CharBuffer : Type := mkCharBuffer {
  buf : list Z;   (* char buf[WBUFSIZE] *)
  pos : Z         (* int pos: next writing position in buf *)
}.

(** A buffer as the C type has it: 128 bytes of storage and a cursor that
    indexes into it. *)
Definition cbuf_ok (cb : CharBuffer) : Prop :=
  List.length (buf cb) = Z.to_nat WBUFSIZE /\ 0 <= pos cb <= WBUFSIZE.

(** The [len] bytes at [src] are an object of the C program. *)
Definition readable (src : list Z) (len : Z) : Prop :=
  0 <= len <= Z.of_nat (List.length src) /\ len <= CInt.PTRDIFF_MAX.

(** [while (i++ < len) *dst++ = *src++;] with [n] iterations left.  A read
    past the end of the source object is not defined by C; it reads 0 here. *)
Fixpoint copy_loop (n : nat) (src : list Z) (dst : nat) (b : list Z) : list Z :=
  match n with
  | O => b
  | S n' => copy_loop n' (tl src) (S dst) (store b dst (hd 0 src))
  end.

(** [write_cbuf]: the bounds test and the new cursor are computed in
    [size_t], as C converts [cb->pos] before adding [len]; the cursor and
    the result are then converted back to [int]. *)
Definition write_cbuf (cb : CharBuffer) (src : list Z) (len : Z)
  : CharBuffer * Z :=
  if CInt.to_size_t (CInt.to_size_t (pos cb) + len) <=? WBUFSIZE then
    ({| buf := copy_loop (Z.to_nat len) src (Z.to_nat (pos cb)) (buf cb);
        pos := CInt.to_int (CInt.to_size_t (CInt.to_size_t (pos cb) + len)) |},
     CInt.to_int len)
  else (cb, -1).

(** ** Build configuration and host constants

    What the preprocessor and the system headers decide: [HAVE_SETSID],
    [USE_SSL], the byte order, the [errno] and signal numbers, and the size
    of the host's timeout table. *)

Record Platform : Type := mkPlatform {
  HAVE_SETSID : bool;
  USE_SSL : bool;
  WORDS_BIGENDIAN : bool;
  EINTR : Z;
  EAGAIN : Z;
  EWOULDBLOCK : Z;
  SIGINT : Z;
  MAX_TIMEOUTS : Z
}.

(** POSIX lets [EAGAIN] and [EWOULDBLOCK] coincide; [EINTR] differs from
    both. *)
Definition platform_ok (P : Platform) : Prop :=
  EINTR P <> EAGAIN P /\ EINTR P <> EWOULDBLOCK P.

Definition linux_x86_64 : Platform :=
  {| HAVE_SETSID := true; USE_SSL := true; WORDS_BIGENDIAN := false;
     EINTR := 4; EAGAIN := 11; EWOULDBLOCK := 11; SIGINT := 2;
     MAX_TIMEOUTS := 18 |}.

(** ** The process state *)

(** What one [write(2)] on the client socket answers: a count, or -1 with
    [errno] set. *)
Inductive wresp : Type :=
| WrRet (n : Z)
| WrErr (e : Z).

Inductive event : Type :=
| EvSetMask (blocked : bool)                    (* PG_SETMASK(&BlockSig / &UnBlockSig) *)
| EvWrite (sock : Z) (data : list Z) (resp : wresp)
| EvKill (pid sig : Z)
| EvEnableTimeoutAfter (id delay_ms : Z)
| EvPrevHook.                                   (* the hook that was installed before *)

Record Port : Type := mkPort {
  sock : Z;
  proto : Z;            (* ProtocolVersion: major << 16 | minor *)
  ssl_in_use : bool
}.

Inductive CmdType : Type :=
| CMD_UNKNOWN | CMD_SELECT | CMD_UPDATE | CMD_INSERT | CMD_DELETE
| CMD_UTILITY | CMD_NOTHING.

Record Query : Type := mkQuery { commandType : CmdType }.

Record State : Type := mkState {
  (* GUC variables *)
  pg_retire_enable : bool;
  pg_retire_interval : Z;
  (* module variables *)
  MyTimeoutId : Z;
  prev_post_parse_analyze : bool;     (* is the saved hook non-NULL *)
  (* host globals *)
  InterruptPending : bool;
  ParallelMessagePending : bool;
  errno : Z;
  MyProcPid : Z;
  MyProcPort : Port;
  (* the host's timeout slot of MyTimeoutId, and its clock (microseconds) *)
  timeout_indicator : bool;
  timeout_fin_time : Z;
  clock : Z;
  (* the answers the kernel will give to the writes still to come *)
  wr_oracle : nat -> wresp;
  wr_count : nat;
  (* what the stack holds where the locals [r] and [cb.buf] are placed *)
  stack_r : Z;
  stack_buf : list Z;
  (* what the module has done so far *)
  trace : list event
}.

Definition emit (ev : event) (st : State) : State :=
  {| pg_retire_enable := pg_retire_enable st;
     pg_retire_interval := pg_retire_interval st;
     MyTimeoutId := MyTimeoutId st;
     prev_post_parse_analyze := prev_post_parse_analyze st;
     InterruptPending := InterruptPending st;
     ParallelMessagePending := ParallelMessagePending st;
     errno := errno st;
     MyProcPid := MyProcPid st;
     MyProcPort := MyProcPort st;
     timeout_indicator := timeout_indicator st;
     timeout_fin_time := timeout_fin_time st;
     clock := clock st;
     wr_oracle := wr_oracle st;
     wr_count := wr_count st;
     stack_r := stack_r st;
     stack_buf := stack_buf st;
     trace := trace st ++ [ev] |}.

Definition set_errno (e : Z) (st : State) : State :=
  {| pg_retire_enable := pg_retire_enable st;
     pg_retire_interval := pg_retire_interval st;
     MyTimeoutId := MyTimeoutId st;
     prev_post_parse_analyze := prev_post_parse_analyze st;
     InterruptPending := InterruptPending st;
     ParallelMessagePending := ParallelMessagePending st;
     errno := e;
     MyProcPid := MyProcPid st;
     MyProcPort := MyProcPort st;
     timeout_indicator := timeout_indicator st;
     timeout_fin_time := timeout_fin_time st;
     clock := clock st;
     wr_oracle := wr_oracle st;
     wr_count := wr_count st;
     stack_r := stack_r st;
     stack_buf := stack_buf st;
     trace := trace st |}.

Definition set_deadline (fired : bool) (fin : Z) (st : State) : State :=
  {| pg_retire_enable := pg_retire_enable st;
     pg_retire_interval := pg_retire_interval st;
     MyTimeoutId := MyTimeoutId st;
     prev_post_parse_analyze := prev_post_parse_analyze st;
     InterruptPending := InterruptPending st;
     ParallelMessagePending := ParallelMessagePending st;
     errno := errno st;
     MyProcPid := MyProcPid st;
     MyProcPort := MyProcPort st;
     timeout_indicator := fired;
     timeout_fin_time := fin;
     clock := clock st;
     wr_oracle := wr_oracle st;
     wr_count := wr_count st;
     stack_r := stack_r st;
     stack_buf := stack_buf st;
     trace := trace st |}.

Definition next_write (st : State) : State :=
  {| pg_retire_enable := pg_retire_enable st;
     pg_retire_interval := pg_retire_interval st;
     MyTimeoutId := MyTimeoutId st;
     prev_post_parse_analyze := prev_post_parse_analyze st;
     InterruptPending := InterruptPending st;
     ParallelMessagePending := ParallelMessagePending st;
     errno := errno st;
     MyProcPid := MyProcPid st;
     MyProcPort := MyProcPort st;
     timeout_indicator := timeout_indicator st;
     timeout_fin_time := timeout_fin_time st;
     clock := clock st;
     wr_oracle := wr_oracle st;
     wr_count := S (wr_count st);
     stack_r := stack_r st;
     stack_buf := stack_buf st;
     trace := trace st |}.

(** [SET pg_retire.enable = b]. *)
Definition set_enable (b : bool) (st : State) : State :=
  {| pg_retire_enable := b;
     pg_retire_interval := pg_retire_interval st;
     MyTimeoutId := MyTimeoutId st;
     prev_post_parse_analyze := prev_post_parse_analyze st;
     InterruptPending := InterruptPending st;
     ParallelMessagePending := ParallelMessagePending st;
     errno := errno st;
     MyProcPid := MyProcPid st;
     MyProcPort := MyProcPort st;
     timeout_indicator := timeout_indicator st;
     timeout_fin_time := timeout_fin_time st;
     clock := clock st;
     wr_oracle := wr_oracle st;
     wr_count := wr_count st;
     stack_r := stack_r st;
     stack_buf := stack_buf st;
     trace := trace st |}.

(** ** The host interface *)

Module Host.

(** [write(fd, p, n)]: the kernel's next answer is consumed and recorded;
    a failure returns -1 and sets [errno], a count leaves [errno] alone. *)
Definition write (fd : Z) (data : list Z) (st : State) : Z * State :=
  let resp := wr_oracle st (wr_count st) in
  let st1 := emit (EvWrite fd data resp) (next_write st) in
  match resp with
  | WrRet n => (n, st1)
  | WrErr e => (-1, set_errno e st1)
  end.

Definition kill (pid sig : Z) (st : State) : State := emit (EvKill pid sig) st.

Definition PG_SETMASK (blocked : bool) (st : State) : State :=
  emit (EvSetMask blocked) st.

Definition GetCurrentTimestamp (st : State) : Z := clock st.

Definition get_timeout_indicator (st : State) : bool := timeout_indicator st.

Definition get_timeout_finish_time (st : State) : Z := timeout_fin_time st.

(** [enable_timeout_after(id, delay_ms)]: the slot is (re)armed to fire
    [delay_ms] milliseconds from now and its fired indicator is cleared. *)
Definition enable_timeout_after (id delay_ms : Z) (st : State) : State :=
  emit (EvEnableTimeoutAfter id delay_ms)
       (set_deadline false (clock st + delay_ms * 1000) st).

Definition PG_PROTOCOL_MAJOR (v : Z) : Z := Z.shiftr v 16.

(** The four bytes of a 32-bit value, least significant first. *)
Definition le_bytes (x : Z) : list Z :=
  [x mod 256; (x / 256) mod 256; (x / 65536) mod 256; (x / 16777216) mod 256].

Definition bswap32 (x : Z) : Z :=
  (x mod 256) * 16777216 + ((x / 256) mod 256) * 65536
  + ((x / 65536) mod 256) * 256 + (x / 16777216) mod 256.

Definition htonl (P : Platform) (x : Z) : Z :=
  if WORDS_BIGENDIAN P then CInt.to_uint32 x else bswap32 (CInt.to_uint32 x).

(** The object representation of an [int]: what [&plen] points to. *)
Definition int_bytes (P : Platform) (x : Z) : list Z :=
  if WORDS_BIGENDIAN P then rev (le_bytes x) else le_bytes x.

End Host.

(** ** pg_retire.c *)

Definition PGRETIRE_DUMMY_PAREMETER_NAME : string := "pg_retire_dummy_name".
Definition PGRETIRE_DUMMY_PAREMETER_VALUE : string := "pg_retire_dummy_value".
Definition PGRETIRE_KEEP_ALIVE_MESSAGE : string := "keep alive checking from pg_retire".

Definition pg_retire_interval_min : Z := 0.
Definition pg_retire_interval_max : Z := CInt.INT_MAX.

Definition interval_accepted (v : Z) : Prop :=
  pg_retire_interval_min <= v <= pg_retire_interval_max.

(** [#define MILLISECONDS(sec) (sec * 1000)], applied to an [int]: the
    product is an [int].  C leaves its overflow undefined; the two's
    complement result is taken here. *)
Definition MILLISECONDS (sec : Z) : Z := CInt.to_int (sec * 1000).

Section Program.

Variable P : Platform.

Definition TIMEOUT_INVALID (st : State) : bool := MyTimeoutId st =? MAX_TIMEOUTS P.

(** The test of [RETURN_IF_INTERRUPT_PENDING]. *)
Definition interrupt_pending_return (st : State) : bool :=
  negb (ParallelMessagePending st) && InterruptPending st.

Definition maybeScheduleAlarm (st : State) : bool * State :=
  if TIMEOUT_INVALID st then (false, st)
  else
    let timer_fired := Host.get_timeout_indicator st in
    if timer_fired then
      (true, Host.enable_timeout_after (MyTimeoutId st)
               (MILLISECONDS (pg_retire_interval st)) st)
    else
      let now := Host.GetCurrentTimestamp st in
      let fin_time := Host.get_timeout_finish_time st in
      if negb (fin_time =? 0) && (now <? fin_time) then (false, st)
      else
        (true, Host.enable_timeout_after (MyTimeoutId st)
                 (MILLISECONDS (pg_retire_interval st)) st).

Definition cancelTransaction (st : State) : State :=
  let sig := SIGINT P in
  let st := if HAVE_SETSID P then Host.kill (- MyProcPid st) sig st else st in
  Host.kill (MyProcPid st) sig st.

(** The [for (;;)] of [flush_cbuf].  [r] is the value the local [r] holds
    when the iteration starts: it is not assigned when the port uses SSL. *)
Fixpoint flush_loop (fuel : nat) (cb : CharBuffer) (port : Port)
         (wlen offset r : Z) (st : State) : option (Z * State) :=
  match fuel with
  | O => None
  | S fuel' =>
      let '(r, st) :=
        if USE_SSL P && ssl_in_use port then (r, st)
        else
          let '(n, st') := Host.write (sock port) (sub_bytes (buf cb) offset wlen) st in
          (CInt.to_int n, st') in
      if 0 <? r then
        let wlen := CInt.to_int (wlen - r) in
        if wlen =? 0 then Some (0, st)
        else if wlen <? 0 then Some (-1, st)
        else flush_loop fuel' cb port wlen (CInt.to_int (offset + r)) r st
      else if errno st =? EINTR P then flush_loop fuel' cb port wlen offset r st
      else if (errno st =? EAGAIN P) || (errno st =? EWOULDBLOCK P) then Some (0, st)
      else Some (-1, st)
  end.

Definition flush_cbuf (fuel : nat) (cb : CharBuffer) (port : Port) (st : State)
  : option (Z * State) :=
  if pos cb =? 0 then Some (0, st)
  else flush_loop fuel cb port (pos cb) 0 (stack_r st) st.

(** A run of [write_cbuf(&cb, src, len);] statements, given by their
    arguments in order.  The results are dropped, as in the source. *)
Fixpoint append_all (cb : CharBuffer) (calls : list (list Z * Z)) : CharBuffer :=
  match calls with
  | [] => cb
  | (src, len) :: rest => append_all (fst (write_cbuf cb src len)) rest
  end.

(** The protocol 3 branch of [send_dummy_message_to_frontend], with the
    two string literals as parameters: the tag, [plen] after [htonl], the
    name and the value. *)
Definition parameter_status_appends (name value : string) : list (list Z * Z) :=
  let plen := CInt.to_int (sizeof_lit name + sizeof_lit value + 4) in
  let plen := CInt.to_int (Host.htonl P plen) in
  [ (cstring "S", 1);
    (Host.int_bytes P plen, 4);
    (cstring name, sizeof_lit name);
    (cstring value, sizeof_lit value) ].

(** The protocol 2 branch. *)
Definition notice_appends (msg : string) : list (list Z * Z) :=
  [ (cstring "N", 1);
    (cstring msg, sizeof_lit msg) ].

Definition dummy_appends (port : Port) : list (list Z * Z) :=
  if 3 <=? Host.PG_PROTOCOL_MAJOR (proto port) then
    parameter_status_appends PGRETIRE_DUMMY_PAREMETER_NAME
                             PGRETIRE_DUMMY_PAREMETER_VALUE
  else
    notice_appends PGRETIRE_KEEP_ALIVE_MESSAGE.

(** What [send_dummy_message_to_frontend] has in [cb] when it flushes:
    [cb.pos = 0] over whatever the stack holds, then the appends. *)
Definition dummy_message (port : Port) (stack : list Z) : CharBuffer :=
  append_all {| buf := stack; pos := 0 |} (dummy_appends port).

Definition send_dummy_message_to_frontend (fuel : nat) (st : State)
  : option (Z * State) :=
  let cb := dummy_message (MyProcPort st) (stack_buf st) in
  flush_cbuf fuel cb (MyProcPort st) st.

Definition doSanityCheck (fuel : nat) (st : State) : option (bool * State) :=
  match send_dummy_message_to_frontend fuel st with
  | None => None
  | Some (status, st') => if negb (status =? 0) then Some (false, st') else Some (true, st')
  end.

Definition pg_retire_alarm_handler (fuel : nat) (st : State) : option State :=
  let save_errno := errno st in
  if interrupt_pending_return st then Some st
  else
    let st := Host.PG_SETMASK true st in
    match doSanityCheck fuel st with
    | None => None
    | Some (alive, st) =>
        let st := if alive then snd (maybeScheduleAlarm st) else cancelTransaction st in
        let st := Host.PG_SETMASK false st in
        Some (set_errno save_errno st)
    end.

Definition call_prev_post_parse_analyze (st : State) : State :=
  if prev_post_parse_analyze st then emit EvPrevHook st else st.

Definition pg_retire_post_parse_analyze (query : Query) (st : State) : State :=
  let st := call_prev_post_parse_analyze st in
  if TIMEOUT_INVALID st || negb (pg_retire_enable st) then st
  else if interrupt_pending_return st then st
  else
    match commandType query with
    | CMD_UTILITY => st
    | _ => snd (maybeScheduleAlarm st)
    end.

End Program.

(** ** Vocabulary of the statements *)

(** The values that a run of [write_cbuf] calls returns, one per call. *)
Fixpoint append_results (cb : CharBuffer) (calls : list (list Z * Z)) : list Z :=
  match calls with
  | [] => []
  | (src, len) :: rest =>
      snd (write_cbuf cb src len) :: append_results (fst (write_cbuf cb src len)) rest
  end.

(** The bytes that a call [write_cbuf(&cb, src, len)] is asked to append. *)
Definition chunk (c : list Z * Z) : list Z := firstn (Z.to_nat (snd c)) (fst c).

Definition total_len (calls : list (list Z * Z)) : Z :=
  fold_right (fun c acc => snd c + acc) 0 calls.

(** The bytes of a string, without a terminator. *)
Definition str_bytes (s : string) : list Z :=
  map byte_of_ascii (list_ascii_of_string s).

Definition strlen (s : string) : Z := Z.of_nat (String.length s).

(** The four bytes of a 32-bit length, most significant first. *)
Definition be32 (n : Z) : list Z :=
  [(n / 16777216) mod 256; (n / 65536) mod 256; (n / 256) mod 256; n mod 256].

Definition is_write (ev : event) : bool :=
  match ev with EvWrite _ _ _ => true | _ => false end.

Definition is_kill (ev : event) : bool :=
  match ev with EvKill _ _ => true | _ => false end.

Definition not_kill (ev : event) : Prop := is_kill ev = false.

Definition is_enable (ev : event) : bool :=
  match ev with EvEnableTimeoutAfter _ _ => true | _ => false end.

(** [next_writes st k]: the kernel's answers to the next [k] writes. *)
Definition next_writes (st : State) (k : nat) : list wresp :=
  map (fun i => wr_oracle st (wr_count st + i)%nat) (seq 0 k).

(** [with_io e n tr st]: [st] after input and output only: [errno], the
    number of writes made and the trace have changed, nothing else has. *)
Definition with_io (e : Z) (n : nat) (tr : list event) (st : State) : State :=
  {| pg_retire_enable := pg_retire_enable st;
     pg_retire_interval := pg_retire_interval st;
     MyTimeoutId := MyTimeoutId st;
     prev_post_parse_analyze := prev_post_parse_analyze st;
     InterruptPending := InterruptPending st;
     ParallelMessagePending := ParallelMessagePending st;
     errno := e;
     MyProcPid := MyProcPid st;
     MyProcPort := MyProcPort st;
     timeout_indicator := timeout_indicator st;
     timeout_fin_time := timeout_fin_time st;
     clock := clock st;
     wr_oracle := wr_oracle st;
     wr_count := n;
     stack_r := stack_r st;
     stack_buf := stack_buf st;
     trace := tr |}.

(** Answers that keep the flush loop going while [wlen] bytes remain: a
    write interrupted by a signal, or a partial write. *)
Fixpoint keeps_going (P : Platform) (wlen : Z) (l : list wresp) : bool :=
  match l with
  | [] => true
  | WrErr e :: l' => (e =? EINTR P) && keeps_going P wlen l'
  | WrRet n :: l' => (0 <? n) && (n <? wlen) && keeps_going P (wlen - n) l'
  end.

(** A deadline is pending: a finish time is recorded and lies ahead. *)
Definition deadline_pending (st : State) : Prop :=
  timeout_fin_time st <> 0 /\ clock st < timeout_fin_time st.

(** [st] with the deadline armed [delay_ms] milliseconds from now. *)
Definition armed_after (delay_ms : Z) (st : State) : State :=
  Host.enable_timeout_after (MyTimeoutId st) delay_ms st.

(** [st'] is [st] after input and output that left the events [tr]. *)
Definition io_frame (st st' : State) (tr : list event) : Prop :=
  st' = with_io (errno st') (wr_count st') (trace st ++ tr) st.

Definition would_block (P : Platform) (e : Z) : Prop :=
  e = EAGAIN P \/ e = EWOULDBLOCK P.

Definition hard_error (P : Platform) (e : Z) : Prop :=
  e <> EINTR P /\ e <> EAGAIN P /\ e <> EWOULDBLOCK P.

(** The port is written to: the build has no SSL or the port does not use
    it. *)
Definition plain_transport (P : Platform) (port : Port) : Prop :=
  USE_SSL P && ssl_in_use port = false.

(** The code that [flush_cbuf] returns when a write fails with an [e] other
    than EINTR. *)
Definition errno_code (P : Platform) (e : Z) : Z :=
  if (e =? EAGAIN P) || (e =? EWOULDBLOCK P) then 0 else -1.

(** The writes of a flush that starts at offset [off] with [wlen] bytes to
    go and is answered by [resps]: each write offers the bytes that remain;
    a count moves the offset, a failure does not. *)
Fixpoint write_events (fd : Z) (b : list Z) (off wlen : Z) (resps : list wresp)
  : list event :=
  match resps with
  | [] => []
  | r :: rest =>
      EvWrite fd (sub_bytes b off wlen) r
      :: match r with
         | WrRet n => write_events fd b (off + n) (wlen - n) rest
         | WrErr _ => write_events fd b off wlen rest
         end
  end.

(** The writes of a probe from [st] that is answered by [resps]. *)
Definition probe_writes (P : Platform) (st : State) (resps : list wresp) : list event :=
  write_events (sock (MyProcPort st))
               (buf (dummy_message P (MyProcPort st) (stack_buf st)))
               0 (total_len (dummy_appends P (MyProcPort st))) resps.

(** What [maybeScheduleAlarm] asks of the timer from [st]. *)
Definition rearm_events (P : Platform) (st : State) : list event :=
  if fst (maybeScheduleAlarm P st)
  then [EvEnableTimeoutAfter (MyTimeoutId st) (MILLISECONDS (pg_retire_interval st))]
  else [].

(** The signals of one call of [cancelTransaction]. *)
Definition cancel_signals (P : Platform) (st : State) : list event :=
  (if HAVE_SETSID P then [EvKill (- MyProcPid st) (SIGINT P)] else [])
  ++ [EvKill (MyProcPid st) (SIGINT P)].

(** ** Example backends

    A backend of a PostgreSQL on Linux x86-64: the timeout is registered
    under id 8, the process id is 4242, the client socket is descriptor 7,
    the clock reads 5000123 microseconds and the stack holds zeros. *)

Definition port_v3 (ssl : bool) : Port := {| sock := 7; proto := 196608; ssl_in_use := ssl |}.
Definition port_v2 (ssl : bool) : Port := {| sock := 7; proto := 131072; ssl_in_use := ssl |}.

Definition backend (enable : bool) (interval : Z) (ipend ppend : bool)
           (port : Port) (fired : bool) (fin : Z) (oracle : nat -> wresp) : State :=
  {| pg_retire_enable := enable;
     pg_retire_interval := interval;
     MyTimeoutId := 8;
     prev_post_parse_analyze := false;
     InterruptPending := ipend;
     ParallelMessagePending := ppend;
     errno := 0;
     MyProcPid := 4242;
     MyProcPort := port;
     timeout_indicator := fired;
     timeout_fin_time := fin;
     clock := 5000123;
     wr_oracle := oracle;
     wr_count := 0;
     stack_r := 0;
     stack_buf := repeat 0 128;
     trace := [] |}.

(** ** The rest of the module

    The authentication hook, the load and unload callbacks, and the
    vocabulary of the statements about them. *)

Definition set_timeout_id (id : Z) (st : State) : State :=
  {| pg_retire_enable := pg_retire_enable st;
     pg_retire_interval := pg_retire_interval st;
     MyTimeoutId := id;
     prev_post_parse_analyze := prev_post_parse_analyze st;
     InterruptPending := InterruptPending st;
     ParallelMessagePending := ParallelMessagePending st;
     errno := errno st;
     MyProcPid := MyProcPid st;
     MyProcPort := MyProcPort st;
     timeout_indicator := timeout_indicator st;
     timeout_fin_time := timeout_fin_time st;
     clock := clock st;
     wr_oracle := wr_oracle st;
     wr_count := wr_count st;
     stack_r := stack_r st;
     stack_buf := stack_buf st;
     trace := trace st |}.

(** The clock reads [t]. *)
Definition set_clock (t : Z) (st : State) : State :=
  {| pg_retire_enable := pg_retire_enable st;
     pg_retire_interval := pg_retire_interval st;
     MyTimeoutId := MyTimeoutId st;
     prev_post_parse_analyze := prev_post_parse_analyze st;
     InterruptPending := InterruptPending st;
     ParallelMessagePending := ParallelMessagePending st;
     errno := errno st;
     MyProcPid := MyProcPid st;
     MyProcPort := MyProcPort st;
     timeout_indicator := timeout_indicator st;
     timeout_fin_time := timeout_fin_time st;
     clock := t;
     wr_oracle := wr_oracle st;
     wr_count := wr_count st;
     stack_r := stack_r st;
     stack_buf := stack_buf st;
     trace := trace st |}.

Definition STATUS_OK : Z := 0.

(** [pg_retire_ClientAuthentication].  [prev_ClientAuthentication] tells
    whether the saved hook is non-NULL.  [RegisterTimeout] is the host's:
    [reg] is what it answers to [RegisterTimeout(USER_TIMEOUT, handler)],
    an id, or nothing when it ends the process at level FATAL; then the
    function does not return ([None]). *)
Definition pg_retire_ClientAuthentication (P : Platform)
           (prev_ClientAuthentication : bool) (reg : option Z)
           (status : Z) (st : State) : option State :=
  let st := if prev_ClientAuthentication then emit EvPrevHook st else st in
  if status =? STATUS_OK then
    if TIMEOUT_INVALID P st then
      match reg with
      | Some id => Some (set_timeout_id id st)
      | None => None
      end
    else Some st
  else Some st.

Module Loader.








End Loader.

(** The bytes still to go after the answers [l] to a flush of [wlen]
    bytes. *)
Fixpoint remaining (wlen : Z) (l : list wresp) : Z :=
  match l with
  | [] => wlen
  | WrRet n :: l' => remaining (wlen - n) l'
  | WrErr _ :: l' => remaining wlen l'
  end.

(** The bytes that the kernel took from the writes of a trace, in order. *)
Fixpoint accepted_bytes (evs : list event) : list Z :=
  match evs with
  | [] => []
  | EvWrite _ data (WrRet n) :: rest => firstn (Z.to_nat n) data ++ accepted_bytes rest
  | _ :: rest => accepted_bytes rest
  end.

Definition is_mask (ev : event) : bool :=
  match ev with EvSetMask _ => true | _ => false end.

(** An event that is no write, no signal and no change of the mask. *)
Definition quiet (ev : event) : Prop :=
  is_write ev = false /\ is_kill ev = false /\ is_mask ev = false.

(** The message that a probe on [port] is to send. *)
Definition probe_message (P : Platform) (port : Port) : list Z :=
  List.concat (map chunk (dummy_appends P port)).

(** What the handler does once the probe has answered [code]. *)
Definition verdict_events (P : Platform) (code : Z) (st : State) : list event :=
  if code =? 0 then rearm_events P st else cancel_signals P st.

(** [st'] differs from [st] at most in the deadline, the number of writes
    made and the trace: what a run of the handler or of the hook may
    touch. *)
Definition same_backend (st st' : State) : Prop :=
  pg_retire_enable st' = pg_retire_enable st
  /\ pg_retire_interval st' = pg_retire_interval st
  /\ MyTimeoutId st' = MyTimeoutId st
  /\ InterruptPending st' = InterruptPending st
  /\ ParallelMessagePending st' = ParallelMessagePending st
  /\ errno st' = errno st
  /\ MyProcPid st' = MyProcPid st
  /\ MyProcPort st' = MyProcPort st
  /\ clock st' = clock st.

(** * Properties *)

Module CIntFacts.
Import CInt.

Lemma to_int_id x : in_int x -> to_int x = x.
Proof.
  unfold in_int, to_int, INT_MIN, INT_MAX. intros H.
  rewrite Z.mod_small by lia. lia.
Qed.

Lemma to_size_t_id x : 0 <= x <= SIZE_MAX -> to_size_t x = x.
Proof.
  unfold to_size_t, SIZE_MAX. intros H. apply Z.mod_small. lia.
Qed.

Lemma to_int_range x : in_int (to_int x).
Proof.
  unfold in_int, to_int, INT_MIN, INT_MAX.
  pose proof (Z.mod_pos_bound (x + 2147483648) 4294967296 ltac:(lia)). lia.
Qed.

End CIntFacts.

(** ** Lemmas on the buffer *)

Lemma store_length l i b : List.length (store l i b) = List.length l.
Proof.
  unfold store. destruct (Nat.ltb i (List.length l)) eqn:E; [|reflexivity].
  apply Nat.ltb_lt in E.
  rewrite length_app, length_firstn. cbn [List.length]. rewrite length_skipn. lia.
Qed.

Lemma store_in_range l i b :
  (i < List.length l)%nat -> store l i b = firstn i l ++ b :: skipn (S i) l.
Proof.
  intros H. unfold store. apply Nat.ltb_lt in H. now rewrite H.
Qed.

Lemma store_app pre m post b :
  store (pre ++ m :: post) (List.length pre) b = pre ++ b :: post.
Proof.
  rewrite store_in_range by (rewrite length_app; cbn [List.length]; lia).
  f_equal.
  - induction pre as [|p pre IH]; cbn [List.length app firstn]; congruence.
  - f_equal. induction pre as [|p pre IH]; [reflexivity|].
    cbn [List.length app]. rewrite skipn_cons. exact IH.
Qed.

Lemma copy_loop_window : forall src pre mid post,
  List.length mid = List.length src ->
  copy_loop (List.length src) src (List.length pre) (pre ++ mid ++ post)
  = pre ++ src ++ post.
Proof.
  induction src as [|x src IH]; intros pre mid post H.
  - destruct mid; [reflexivity | discriminate].
  - destruct mid as [|m mid]; [discriminate|].
    cbn [List.length copy_loop hd tl app].
    rewrite store_app.
    replace (S (List.length pre)) with (List.length (pre ++ [x]))
      by (rewrite length_app; cbn [List.length]; lia).
    replace (pre ++ x :: mid ++ post) with ((pre ++ [x]) ++ mid ++ post)
      by (rewrite <- app_assoc; reflexivity).
    rewrite IH by (cbn [List.length] in H; lia).
    rewrite <- app_assoc. reflexivity.
Qed.

(** Copying a whole object into a window that lies inside the array replaces
    exactly that window. *)
Lemma copy_loop_spec : forall src dst b,
  (dst + List.length src <= List.length b)%nat ->
  copy_loop (List.length src) src dst b
  = firstn dst b ++ src ++ skipn (dst + List.length src) b.
Proof.
  intros src dst b H.
  assert (Hd : List.length (firstn dst b) = dst) by (rewrite length_firstn; lia).
  rewrite <- (firstn_skipn dst b) at 1.
  rewrite <- (firstn_skipn (List.length src) (skipn dst b)).
  rewrite <- Hd at 1.
  rewrite copy_loop_window.
  - rewrite skipn_skipn, (Nat.add_comm (List.length src) dst). reflexivity.
  - rewrite length_firstn, length_skipn. lia.
Qed.

Lemma copy_loop_firstn n : forall src dst b,
  copy_loop n src dst b = copy_loop n (firstn n src) dst b.
Proof.
  induction n as [|n IH]; intros src dst b; [reflexivity|].
  cbn [copy_loop]. destruct src as [|x src]; cbn [firstn hd tl].
  - rewrite (IH []). now rewrite firstn_nil.
  - apply IH.
Qed.

Lemma copy_loop_prefix n src dst b :
  (n <= List.length src)%nat -> (dst + n <= List.length b)%nat ->
  copy_loop n src dst b = firstn dst b ++ firstn n src ++ skipn (dst + n) b.
Proof.
  intros Hn Hb.
  assert (E : List.length (firstn n src) = n) by (rewrite length_firstn; lia).
  rewrite copy_loop_firstn.
  rewrite <- E at 1. rewrite copy_loop_spec by lia.
  now rewrite E.
Qed.

Lemma sub_bytes_window pre mid post :
  sub_bytes (pre ++ mid ++ post) (Z.of_nat (List.length pre)) (Z.of_nat (List.length mid))
  = mid.
Proof.
  unfold sub_bytes. rewrite !Nat2Z.id.
  rewrite skipn_app, skipn_all, Nat.sub_diag. cbn [skipn app].
  rewrite firstn_app, firstn_all, Nat.sub_diag. cbn [firstn]. apply app_nil_r.
Qed.

Lemma sub_bytes_head pre post :
  sub_bytes (pre ++ post) 0 (Z.of_nat (List.length pre)) = pre.
Proof.
  unfold sub_bytes. rewrite Nat2Z.id. cbn [Z.to_nat skipn].
  rewrite firstn_app, firstn_all, Nat.sub_diag. cbn [firstn]. apply app_nil_r.
Qed.

(** The bounds test of [write_cbuf] is the mathematical one as long as the
    appended bytes are an object of the program. *)
Lemma write_cbuf_test cb src len :
  cbuf_ok cb -> readable src len ->
  CInt.to_size_t (CInt.to_size_t (pos cb) + len) = pos cb + len.
Proof.
  intros [_ Hp] [Hl Hm]. unfold WBUFSIZE in Hp. unfold CInt.PTRDIFF_MAX in Hm.
  rewrite (CIntFacts.to_size_t_id (pos cb)) by (unfold CInt.SIZE_MAX; lia).
  apply CIntFacts.to_size_t_id. unfold CInt.SIZE_MAX. lia.
Qed.

Lemma write_cbuf_fail cb src len :
  cbuf_ok cb -> readable src len -> pos cb + len > WBUFSIZE ->
  write_cbuf cb src len = (cb, -1).
Proof.
  intros Hc Hr Hgt. unfold write_cbuf.
  rewrite (write_cbuf_test cb src len) by assumption.
  destruct (Z.leb_spec (pos cb + len) WBUFSIZE); [lia | reflexivity].
Qed.

Lemma write_cbuf_ok cb src len :
  cbuf_ok cb -> readable src len -> pos cb + len <= WBUFSIZE ->
  write_cbuf cb src len
  = ({| buf := firstn (Z.to_nat (pos cb)) (buf cb)
               ++ firstn (Z.to_nat len) src
               ++ skipn (Z.to_nat (pos cb + len)) (buf cb);
        pos := pos cb + len |}, len).
Proof.
  intros Hc Hr Hle. unfold write_cbuf.
  rewrite (write_cbuf_test cb src len) by assumption.
  destruct (Z.leb_spec (pos cb + len) WBUFSIZE) as [_|]; [|lia].
  destruct Hc as [Hlen Hp]. destruct Hr as [Hl Hm]. unfold WBUFSIZE in *.
  rewrite !CIntFacts.to_int_id
    by (unfold CInt.in_int, CInt.INT_MIN, CInt.INT_MAX; lia).
  rewrite copy_loop_prefix by lia.
  rewrite <- Z2Nat.inj_add by lia. reflexivity.
Qed.

Lemma write_cbuf_fits cb src len :
  cbuf_ok cb -> readable src len -> pos cb + len <= WBUFSIZE ->
  snd (write_cbuf cb src len) = len
  /\ pos (fst (write_cbuf cb src len)) = pos cb + len
  /\ cbuf_ok (fst (write_cbuf cb src len)).
Proof.
  intros Hc Hr Hle. rewrite write_cbuf_ok by assumption. cbn [fst snd pos].
  split; [reflexivity|]. split; [reflexivity|].
  destruct Hc as [Hlen Hp]. destruct Hr as [Hl Hm].
  unfold cbuf_ok, WBUFSIZE in *. cbn [buf pos]. split; [|lia].
  rewrite !length_app, !length_firstn, length_skipn. lia.
Qed.

(** C3.  An append to a probe buffer is bounds-checked: when the bytes do
    not fit into the 128 bytes of storage, [write_cbuf] returns -1 and the
    buffer (cursor and bytes) is what it was; when they fit, it returns
    [len], the [len] bytes stand at the old cursor, the bytes before it are
    untouched, and the cursor has moved by [len] without passing 128. *)
Theorem write_cbuf_bounds_checked (cb : CharBuffer) (src : list Z) (len : Z) :
  cbuf_ok cb -> readable src len ->
  (pos cb + len > WBUFSIZE -> write_cbuf cb src len = (cb, -1)) /\
  (pos cb + len <= WBUFSIZE ->
     let cb' := fst (write_cbuf cb src len) in
     snd (write_cbuf cb src len) = len /\
     sub_bytes (buf cb') (pos cb) len = firstn (Z.to_nat len) src /\
     sub_bytes (buf cb') 0 (pos cb) = sub_bytes (buf cb) 0 (pos cb) /\
     pos cb' = pos cb + len /\
     pos cb' <= WBUFSIZE /\
     cbuf_ok cb').
Proof.
  intros Hc Hr. split; [now apply write_cbuf_fail|].
  intros Hle. rewrite write_cbuf_ok by assumption. cbn [fst snd buf pos].
  destruct Hc as [Hlen Hp]. destruct Hr as [Hl Hm]. unfold WBUFSIZE in *.
  set (pre := firstn (Z.to_nat (pos cb)) (buf cb)).
  set (mid := firstn (Z.to_nat len) src).
  set (post := skipn (Z.to_nat (pos cb + len)) (buf cb)).
  assert (Hpre : List.length pre = Z.to_nat (pos cb))
    by (unfold pre; rewrite length_firstn; lia).
  assert (Hmid : List.length mid = Z.to_nat len)
    by (unfold mid; rewrite length_firstn; lia).
  assert (Hpost : List.length post = (128 - Z.to_nat (pos cb + len))%nat)
    by (unfold post; rewrite length_skipn; lia).
  unfold cbuf_ok, WBUFSIZE. cbn [buf pos]. repeat split; try lia.
  - replace (pos cb) with (Z.of_nat (List.length pre)) by lia.
    replace len with (Z.of_nat (List.length mid)) at 1 by lia.
    apply sub_bytes_window.
  - replace (pos cb) with (Z.of_nat (List.length pre)) by lia.
    rewrite sub_bytes_head.
    unfold sub_bytes, pre. rewrite Nat2Z.id, length_firstn. cbn [Z.to_nat skipn].
    rewrite Nat.min_l by lia. reflexivity.
  - rewrite !length_app, Hpre, Hmid, Hpost. lia.
Qed.

Lemma write_cbuf_bounds_checked_witness :
  write_cbuf {| buf := repeat 0 128; pos := 127 |} [83; 0] 2
  = ({| buf := repeat 0 128; pos := 127 |}, -1)
  /\ snd (write_cbuf {| buf := repeat 0 128; pos := 126 |} [83; 0] 2) = 2.
Proof.
  assert (Hr : readable [83; 0] 2)
    by (unfold readable, CInt.PTRDIFF_MAX; simpl; lia).
  assert (Hc : forall p, 0 <= p <= 128 -> cbuf_ok {| buf := repeat 0 128; pos := p |})
    by (intros p Hp; unfold cbuf_ok, WBUFSIZE; cbn [buf pos];
        rewrite repeat_length; split; [reflexivity | exact Hp]).
  split.
  - apply (write_cbuf_bounds_checked {| buf := repeat 0 128; pos := 127 |} [83; 0] 2
             (Hc 127 ltac:(lia)) Hr).
    cbn [pos]. unfold WBUFSIZE. lia.
  - apply (write_cbuf_bounds_checked {| buf := repeat 0 128; pos := 126 |} [83; 0] 2
             (Hc 126 ltac:(lia)) Hr).
    cbn [pos]. unfold WBUFSIZE. lia.
Defined.

(** ** A run of appends that fits *)

Lemma firstn_app_exact (pre l : list Z) n :
  List.length pre = n -> firstn n (pre ++ l) = pre.
Proof.
  intros <-. rewrite firstn_app, firstn_all, Nat.sub_diag. cbn [firstn]. apply app_nil_r.
Qed.

Lemma skipn_app_exact (pre l : list Z) n k :
  List.length pre = n -> skipn (n + k) (pre ++ l) = skipn k l.
Proof.
  intros <-. rewrite skipn_app, skipn_all2 by lia.
  cbn [app]. f_equal. lia.
Qed.

Lemma total_len_nonneg calls :
  Forall (fun c => readable (fst c) (snd c)) calls -> 0 <= total_len calls.
Proof.
  induction 1 as [|c calls [Hc _] _ IH]; cbn [total_len fold_right]; [lia|].
  fold (total_len calls). lia.
Qed.

Lemma chunk_length c : readable (fst c) (snd c) -> Z.of_nat (List.length (chunk c)) = snd c.
Proof.
  intros [Hc _]. unfold chunk. rewrite length_firstn. lia.
Qed.

(** When all the bytes fit behind the cursor, every call returns its [len],
    and the buffer holds the chunks one after the other from the old cursor
    on. *)
Lemma append_all_fits : forall calls cb,
  cbuf_ok cb ->
  Forall (fun c => readable (fst c) (snd c)) calls ->
  pos cb + total_len calls <= WBUFSIZE ->
  append_results cb calls = map snd calls
  /\ pos (append_all cb calls) = pos cb + total_len calls
  /\ buf (append_all cb calls)
     = firstn (Z.to_nat (pos cb)) (buf cb)
       ++ List.concat (map chunk calls)
       ++ skipn (Z.to_nat (pos cb + total_len calls)) (buf cb)
  /\ cbuf_ok (append_all cb calls).
Proof.
  induction calls as [|[src len] calls IH]; intros cb Hc Hr Hfit.
  - cbn [append_results append_all map total_len fold_right List.concat app].
    rewrite Z.add_0_r, firstn_skipn. auto.
  - inversion Hr as [|c l Hr1 Hr2]; subst c l. cbn [fst snd] in Hr1.
    cbn [total_len fold_right snd] in Hfit. fold (total_len calls) in Hfit.
    pose proof (total_len_nonneg calls Hr2) as Hnn.
    assert (Hle : pos cb + len <= WBUFSIZE) by lia.
    destruct (write_cbuf_fits cb src len Hc Hr1 Hle) as (Hret & Hpos & Hc').
    cbn [append_results append_all map total_len fold_right List.concat snd].
    fold (total_len calls).
    destruct (IH (fst (write_cbuf cb src len)) Hc' Hr2) as (R1 & R2 & R3 & R4).
    { rewrite Hpos. lia. }
    rewrite R1, R2, R3, Hret, Hpos.
    split; [reflexivity|]. split; [lia|]. split; [|exact R4].
    rewrite (write_cbuf_ok cb src len Hc Hr1 Hle). cbn [fst buf].
    destruct Hc as [Hlen Hp]. destruct Hr1 as [Hl Hm]. unfold WBUFSIZE in *.
    set (pre := firstn (Z.to_nat (pos cb)) (buf cb)).
    assert (Hpre : List.length pre = Z.to_nat (pos cb))
      by (unfold pre; rewrite length_firstn; lia).
    change (firstn (Z.to_nat len) src) with (chunk (src, len)).
    assert (Hmid : List.length (chunk (src, len)) = Z.to_nat len)
      by (unfold chunk; cbn [fst snd]; rewrite length_firstn; lia).
    rewrite (app_assoc pre).
    rewrite firstn_app_exact
      by (rewrite length_app, Hpre, Hmid; lia).
    replace (Z.to_nat (pos cb + len + total_len calls))
      with (List.length (pre ++ chunk (src, len)) + Z.to_nat (total_len calls))%nat
      by (rewrite length_app, Hpre, Hmid; lia).
    rewrite (skipn_app_exact (pre ++ chunk (src, len))) by reflexivity.
    rewrite skipn_skipn.
    rewrite <- !app_assoc. do 3 f_equal. f_equal. lia.
Qed.

(** ** The dummy message *)

Lemma list_ascii_length s :
  List.length (list_ascii_of_string s) = String.length s.
Proof.
  induction s as [|a s IH]; cbn [list_ascii_of_string List.length String.length];
    congruence.
Qed.

Lemma sizeof_lit_strlen s : sizeof_lit s = strlen s + 1.
Proof.
  unfold sizeof_lit, cstring, strlen.
  rewrite length_app, length_map, list_ascii_length. cbn [List.length]. lia.
Qed.

Lemma cstring_bytes s : cstring s = str_bytes s ++ [0].
Proof. reflexivity. Qed.

Lemma chunk_literal s : chunk (cstring s, sizeof_lit s) = cstring s.
Proof.
  unfold chunk, sizeof_lit. cbn [fst snd]. rewrite Nat2Z.id. apply firstn_all.
Qed.

Lemma readable_literal s : strlen s + 1 <= WBUFSIZE -> readable (cstring s) (sizeof_lit s).
Proof.
  intros H. unfold readable, CInt.PTRDIFF_MAX. unfold WBUFSIZE in H.
  rewrite sizeof_lit_strlen. unfold sizeof_lit in *.
  pose proof (sizeof_lit_strlen s) as E. unfold sizeof_lit in E.
  unfold strlen in *. lia.
Qed.

Lemma int_bytes_length P x : List.length (Host.int_bytes P x) = 4%nat.
Proof. unfold Host.int_bytes. now destruct (WORDS_BIGENDIAN P). Qed.

(** [htonl] followed by a copy of the object representation puts the most
    significant byte first, whatever the byte order of the host. *)
Lemma htonl_bytes P n :
  0 <= n <= CInt.INT_MAX ->
  Host.int_bytes P (CInt.to_int (Host.htonl P (CInt.to_int n))) = be32 n.
Proof.
  intros Hn. unfold CInt.INT_MAX in Hn.
  rewrite (CIntFacts.to_int_id n)
    by (unfold CInt.in_int, CInt.INT_MIN, CInt.INT_MAX; lia).
  unfold Host.int_bytes, Host.htonl, CInt.to_uint32.
  rewrite (Z.mod_small n) by lia.
  destruct (WORDS_BIGENDIAN P).
  - rewrite CIntFacts.to_int_id
      by (unfold CInt.in_int, CInt.INT_MIN, CInt.INT_MAX; lia).
    reflexivity.
  - unfold Host.le_bytes, be32, Host.bswap32, CInt.to_int.
    set (m := n mod 256 * 16777216 + n / 256 mod 256 * 65536
              + n / 65536 mod 256 * 256 + n / 16777216 mod 256).
    set (x := (m + 2147483648) mod 4294967296 - 2147483648).
    assert (E0 : x mod 256 = n / 16777216 mod 256)
      by (subst x m; Z.div_mod_to_equations; lia).
    assert (E1 : x / 256 mod 256 = n / 65536 mod 256)
      by (subst x m; Z.div_mod_to_equations; lia).
    assert (E2 : x / 65536 mod 256 = n / 256 mod 256)
      by (subst x m; Z.div_mod_to_equations; lia).
    assert (E3 : x / 16777216 mod 256 = n mod 256)
      by (subst x m; Z.div_mod_to_equations; lia).
    now rewrite E0, E1, E2, E3.
Qed.

Lemma chunk_plen P x : chunk (Host.int_bytes P x, 4) = Host.int_bytes P x.
Proof.
  unfold chunk. cbn [fst snd]. apply firstn_all2. rewrite int_bytes_length.
  change (Z.to_nat 4) with 4%nat. lia.
Qed.

Lemma concat_chunks_length calls :
  Forall (fun c => readable (fst c) (snd c)) calls ->
  Z.of_nat (List.length (List.concat (map chunk calls))) = total_len calls.
Proof.
  induction 1 as [|c calls Hc _ IH]; [reflexivity|].
  cbn [map List.concat total_len fold_right]. fold (total_len calls).
  rewrite length_app, Nat2Z.inj_add, IH, (chunk_length c Hc). reflexivity.
Qed.

Lemma fresh_cbuf_ok stack :
  List.length stack = Z.to_nat WBUFSIZE -> cbuf_ok {| buf := stack; pos := 0 |}.
Proof. intros H. unfold cbuf_ok, WBUFSIZE in *. cbn [buf pos]. split; [exact H | lia]. Qed.

(** A run of appends into a fresh buffer that fits leaves exactly the chunks
    as the message to flush, and no call fails. *)
Lemma append_all_message calls stack :
  List.length stack = Z.to_nat WBUFSIZE ->
  Forall (fun c => readable (fst c) (snd c)) calls ->
  total_len calls <= WBUFSIZE ->
  let cb := append_all {| buf := stack; pos := 0 |} calls in
  append_results {| buf := stack; pos := 0 |} calls = map snd calls
  /\ pos cb = total_len calls
  /\ sub_bytes (buf cb) 0 (pos cb) = List.concat (map chunk calls).
Proof.
  intros Hs Hr Hfit cb.
  destruct (append_all_fits calls {| buf := stack; pos := 0 |}
              (fresh_cbuf_ok stack Hs) Hr) as (R1 & R2 & R3 & _);
    [cbn [pos]; lia|].
  cbn [pos buf] in R2, R3. rewrite Z.add_0_l in R2.
  split; [exact R1|]. split; [exact R2|].
  subst cb. rewrite R2, R3. cbn [Z.to_nat firstn app].
  rewrite <- (concat_chunks_length calls Hr). apply sub_bytes_head.
Qed.

Lemma parameter_status_readable P name value :
  1 + 4 + (strlen name + 1) + (strlen value + 1) <= WBUFSIZE ->
  Forall (fun c => readable (fst c) (snd c)) (parameter_status_appends P name value).
Proof.
  intros H.
  assert (0 <= strlen name /\ 0 <= strlen value) as [Hn Hv] by (unfold strlen; lia).
  unfold parameter_status_appends.
  repeat constructor; cbn [fst snd];
    try (apply readable_literal; lia);
    unfold readable, CInt.PTRDIFF_MAX; rewrite ?int_bytes_length; simpl; lia.
Qed.

(** The protocol 3 message for any two literals that fit, byte for byte. *)
Lemma parameter_status_wire P name value stack :
  List.length stack = Z.to_nat WBUFSIZE ->
  1 + 4 + (strlen name + 1) + (strlen value + 1) <= WBUFSIZE ->
  let cb := append_all {| buf := stack; pos := 0 |} (parameter_status_appends P name value) in
  pos cb = 1 + 4 + (strlen name + 1) + (strlen value + 1)
  /\ sub_bytes (buf cb) 0 (pos cb)
     = [83] ++ be32 (strlen name + 1 + (strlen value + 1) + 4)
       ++ (str_bytes name ++ [0]) ++ (str_bytes value ++ [0]).
Proof.
  intros Hs Hfit cb.
  assert (0 <= strlen name /\ 0 <= strlen value) as [Hn Hv] by (unfold strlen; lia).
  destruct (append_all_message (parameter_status_appends P name value) stack Hs
              (parameter_status_readable P name value Hfit)) as (_ & R2 & R3).
  { unfold parameter_status_appends, total_len. cbn [fold_right snd].
    rewrite !sizeof_lit_strlen. lia. }
  fold cb in R2, R3. split.
  - rewrite R2. unfold parameter_status_appends, total_len. cbn [fold_right snd].
    rewrite !sizeof_lit_strlen. lia.
  - rewrite R3. unfold parameter_status_appends. cbn [map List.concat].
    rewrite !chunk_literal, chunk_plen, app_nil_r, !sizeof_lit_strlen.
    rewrite htonl_bytes by (unfold CInt.INT_MAX; unfold WBUFSIZE in Hfit; lia).
    rewrite !cstring_bytes. reflexivity.
Qed.

(** C2.  Under protocol 3 or later the message that the transmitter has
    built when it flushes is the tag ['S'], the big-endian 32-bit length
    [len(name)+1 + len(value)+1 + 4], then the parameter name and the
    parameter value, each with its terminating NUL, in that order; this on
    either byte order and whatever the stack held. *)
Theorem dummy_message_parameter_status (P : Platform) (port : Port) (stack : list Z) :
  List.length stack = Z.to_nat WBUFSIZE ->
  3 <= Host.PG_PROTOCOL_MAJOR (proto port) ->
  let cb := dummy_message P port stack in
  let name := PGRETIRE_DUMMY_PAREMETER_NAME in
  let value := PGRETIRE_DUMMY_PAREMETER_VALUE in
  sub_bytes (buf cb) 0 (pos cb)
  = [83] ++ be32 (strlen name + 1 + (strlen value + 1) + 4)
    ++ (str_bytes name ++ [0]) ++ (str_bytes value ++ [0]).
Proof.
  intros Hs Hv3 cb name value. subst cb. unfold dummy_message, dummy_appends.
  destruct (Z.leb_spec 3 (Host.PG_PROTOCOL_MAJOR (proto port))) as [_|]; [|lia].
  apply parameter_status_wire; [exact Hs|].
  unfold WBUFSIZE. vm_compute. discriminate.
Qed.

Lemma dummy_message_parameter_status_witness :
  let cb := dummy_message linux_x86_64
              {| sock := 7; proto := 196608; ssl_in_use := false |} (repeat 0 128) in
  sub_bytes (buf cb) 0 (pos cb)
  = [83; 0; 0; 0; 47;
     112; 103; 95; 114; 101; 116; 105; 114; 101; 95;
     100; 117; 109; 109; 121; 95; 110; 97; 109; 101; 0;
     112; 103; 95; 114; 101; 116; 105; 114; 101; 95;
     100; 117; 109; 109; 121; 95; 118; 97; 108; 117; 101; 0].
Proof.
  apply (dummy_message_parameter_status linux_x86_64
           {| sock := 7; proto := 196608; ssl_in_use := false |} (repeat 0 128)).
  - reflexivity.
  - vm_compute. discriminate.
Defined.

Lemma dummy_appends_readable P port :
  Forall (fun c => readable (fst c) (snd c)) (dummy_appends P port).
Proof.
  unfold dummy_appends.
  destruct (3 <=? Host.PG_PROTOCOL_MAJOR (proto port)).
  - apply parameter_status_readable. vm_compute. discriminate.
  - unfold notice_appends.
    repeat constructor; cbn [fst snd];
      try (apply readable_literal; vm_compute; discriminate);
      unfold readable, CInt.PTRDIFF_MAX; simpl; lia.
Qed.

Lemma dummy_appends_lens P port :
  map snd (dummy_appends P port)
  = if 3 <=? Host.PG_PROTOCOL_MAJOR (proto port) then [1; 4; 21; 22] else [1; 35].
Proof.
  unfold dummy_appends.
  destruct (3 <=? Host.PG_PROTOCOL_MAJOR (proto port)); reflexivity.
Qed.

Lemma dummy_appends_total P port :
  total_len (dummy_appends P port)
  = if 3 <=? Host.PG_PROTOCOL_MAJOR (proto port) then 48 else 36.
Proof.
  unfold dummy_appends.
  destruct (3 <=? Host.PG_PROTOCOL_MAJOR (proto port)); reflexivity.
Qed.

(** C10.  The two messages that the program builds fit into the 128 bytes:
    the appends are of 1, 4, 21 and 22 bytes (48 in all) under protocol 3
    and of 1 and 35 bytes (36 in all) under protocol 2, every call of
    [write_cbuf] returns its [len] and none returns -1, and the message to
    flush is the chunks in full, one after the other. *)
Theorem dummy_message_appends_fit (P : Platform) (port : Port) (stack : list Z) :
  List.length stack = Z.to_nat WBUFSIZE ->
  let v3 := 3 <=? Host.PG_PROTOCOL_MAJOR (proto port) in
  let calls := dummy_appends P port in
  let cb := dummy_message P port stack in
  map snd calls = (if v3 then [1; 4; 21; 22] else [1; 35])
  /\ append_results {| buf := stack; pos := 0 |} calls = map snd calls
  /\ ~ In (-1) (append_results {| buf := stack; pos := 0 |} calls)
  /\ pos cb = (if v3 then 48 else 36)
  /\ pos cb <= WBUFSIZE
  /\ sub_bytes (buf cb) 0 (pos cb) = List.concat (map chunk calls).
Proof.
  intros Hs v3 calls cb.
  assert (Hfit : total_len calls <= WBUFSIZE).
  { subst calls. rewrite dummy_appends_total. unfold WBUFSIZE.
    destruct (3 <=? Host.PG_PROTOCOL_MAJOR (proto port)); lia. }
  destruct (append_all_message calls stack Hs (dummy_appends_readable P port) Hfit)
    as (R1 & R2 & R3).
  change (append_all {| buf := stack; pos := 0 |} calls) with cb in R2, R3.
  pose proof (dummy_appends_lens P port) as L. fold calls v3 in L.
  pose proof (dummy_appends_total P port) as T. fold calls v3 in T.
  split; [exact L|]. split; [exact R1|]. split.
  - rewrite R1, L. destruct v3; cbn [In]; lia.
  - split; [congruence|]. split; [lia | exact R3].
Qed.

Lemma dummy_message_appends_fit_witness :
  append_results {| buf := repeat 0 128; pos := 0 |}
    (dummy_appends linux_x86_64 {| sock := 7; proto := 131072; ssl_in_use := false |})
  = [1; 35]
  /\ pos (dummy_message linux_x86_64
            {| sock := 7; proto := 196608; ssl_in_use := false |} (repeat 0 128)) = 48.
Proof.
  split.
  - pose proof (dummy_message_appends_fit linux_x86_64
                  {| sock := 7; proto := 131072; ssl_in_use := false |} (repeat 0 128)
                  eq_refl) as H.
    cbv zeta in H. destruct H as (L & R & _). rewrite R. exact L.
  - pose proof (dummy_message_appends_fit linux_x86_64
                  {| sock := 7; proto := 196608; ssl_in_use := false |} (repeat 0 128)
                  eq_refl) as H.
    cbv zeta in H. destruct H as (_ & _ & _ & Hp & _). exact Hp.
Defined.

(** ** The scheduler *)

Lemma deadline_pending_dec st :
  (negb (timeout_fin_time st =? 0) && (clock st <? timeout_fin_time st)) = true
  <-> deadline_pending st.
Proof.
  unfold deadline_pending.
  rewrite andb_true_iff, negb_true_iff, Z.eqb_neq, Z.ltb_lt. reflexivity.
Qed.

(** C6.  [maybeScheduleAlarm] changes the state only by arming, and arms
    only when the previous deadline has fired or none is pending.  With a
    registered timeout: if the fired indicator is set it arms and returns
    true; if it is not set and a deadline is pending it returns false and
    the state is what it was; otherwise it arms and returns true. *)
Theorem maybeScheduleAlarm_policy (P : Platform) (st : State) :
  let armed := armed_after (MILLISECONDS (pg_retire_interval st)) st in
  (maybeScheduleAlarm P st = (true, armed) \/ maybeScheduleAlarm P st = (false, st))
  /\ (maybeScheduleAlarm P st = (true, armed) ->
      timeout_indicator st = true \/ ~ deadline_pending st)
  /\ (MyTimeoutId st <> MAX_TIMEOUTS P ->
      (timeout_indicator st = true -> maybeScheduleAlarm P st = (true, armed))
      /\ (timeout_indicator st = false -> deadline_pending st ->
          maybeScheduleAlarm P st = (false, st))
      /\ (timeout_indicator st = false -> ~ deadline_pending st ->
          maybeScheduleAlarm P st = (true, armed))).
Proof.
  intros armed. subst armed.
  unfold maybeScheduleAlarm, TIMEOUT_INVALID, Host.get_timeout_indicator,
    Host.get_timeout_finish_time, Host.GetCurrentTimestamp, armed_after.
  pose proof (deadline_pending_dec st) as D.
  destruct (Z.eqb_spec (MyTimeoutId st) (MAX_TIMEOUTS P)) as [Einv|Hval];
    destruct (timeout_indicator st) eqn:Ef;
    destruct (negb (timeout_fin_time st =? 0) && (clock st <? timeout_fin_time st)) eqn:Ep.
  all: repeat split; auto; try discriminate; try contradiction.
  all: try (intros _ Hn; exfalso; apply Hn; apply D; reflexivity).
  all: try (intros _ Hp; apply D in Hp; discriminate).
  all: try (intros _; right; intros Hp; apply D in Hp; discriminate).
Qed.

Lemma maybeScheduleAlarm_policy_witness :
  maybeScheduleAlarm linux_x86_64
    (backend true 10 false false (port_v3 false) false 9000000 (fun _ => WrRet 48))
  = (false, backend true 10 false false (port_v3 false) false 9000000 (fun _ => WrRet 48)).
Proof.
  apply (maybeScheduleAlarm_policy linux_x86_64
           (backend true 10 false false (port_v3 false) false 9000000 (fun _ => WrRet 48))).
  - vm_compute. discriminate.
  - reflexivity.
  - unfold deadline_pending. cbn [backend timeout_fin_time clock]. lia.
Defined.

(** ** The flush loop *)

Lemma MILLISECONDS_exact sec :
  0 <= sec <= 2147483 -> MILLISECONDS sec = sec * 1000.
Proof.
  intros H. unfold MILLISECONDS. apply CIntFacts.to_int_id.
  unfold CInt.in_int, CInt.INT_MIN, CInt.INT_MAX. lia.
Qed.

Lemma io_frame_refl st : io_frame st st [].
Proof. unfold io_frame. rewrite app_nil_r. now destruct st. Qed.

Lemma io_frame_trans st st1 st2 tr1 tr2 :
  io_frame st st1 tr1 -> io_frame st1 st2 tr2 -> io_frame st st2 (tr1 ++ tr2).
Proof.
  unfold io_frame. intros H1 H2. rewrite H2. rewrite H1.
  unfold with_io. cbn. rewrite app_assoc. reflexivity.
Qed.

Lemma write_ret fd data st n :
  wr_oracle st (wr_count st) = WrRet n ->
  Host.write fd data st = (n, emit (EvWrite fd data (WrRet n)) (next_write st)).
Proof. intros H. unfold Host.write. now rewrite H. Qed.

Lemma write_err fd data st e :
  wr_oracle st (wr_count st) = WrErr e ->
  Host.write fd data st
  = (-1, set_errno e (emit (EvWrite fd data (WrErr e)) (next_write st))).
Proof. intros H. unfold Host.write. now rewrite H. Qed.

Lemma write_frame fd data st :
  io_frame st (snd (Host.write fd data st))
           [EvWrite fd data (wr_oracle st (wr_count st))].
Proof.
  unfold Host.write, io_frame.
  destruct (wr_oracle st (wr_count st)); reflexivity.
Qed.

Lemma write_count fd data st :
  wr_count (snd (Host.write fd data st)) = S (wr_count st)
  /\ wr_oracle (snd (Host.write fd data st)) = wr_oracle st.
Proof.
  unfold Host.write. destruct (wr_oracle st (wr_count st)); split; reflexivity.
Qed.

(** One iteration over a port that is written to. *)
Lemma flush_loop_step P fuel cb port wlen off r st :
  plain_transport P port ->
  flush_loop P (S fuel) cb port wlen off r st
  = let w := Host.write (sock port) (sub_bytes (buf cb) off wlen) st in
    let r := CInt.to_int (fst w) in
    let st := snd w in
    if 0 <? r then
      let wlen := CInt.to_int (wlen - r) in
      if wlen =? 0 then Some (0, st)
      else if wlen <? 0 then Some (-1, st)
      else flush_loop P fuel cb port wlen (CInt.to_int (off + r)) r st
    else if errno st =? EINTR P then flush_loop P fuel cb port wlen off r st
    else if (errno st =? EAGAIN P) || (errno st =? EWOULDBLOCK P) then Some (0, st)
    else Some (-1, st).
Proof.
  intros Hp. unfold plain_transport in Hp. cbn [flush_loop]. rewrite Hp.
  destruct (Host.write (sock port) (sub_bytes (buf cb) off wlen) st). reflexivity.
Qed.

(** One iteration over a port that uses SSL: nothing is written and [r]
    keeps the value it had. *)
Lemma flush_loop_step_ssl P fuel cb port wlen off r st :
  USE_SSL P && ssl_in_use port = true ->
  flush_loop P (S fuel) cb port wlen off r st
  = if 0 <? r then
      let wlen := CInt.to_int (wlen - r) in
      if wlen =? 0 then Some (0, st)
      else if wlen <? 0 then Some (-1, st)
      else flush_loop P fuel cb port wlen (CInt.to_int (off + r)) r st
    else if errno st =? EINTR P then flush_loop P fuel cb port wlen off r st
    else if (errno st =? EAGAIN P) || (errno st =? EWOULDBLOCK P) then Some (0, st)
    else Some (-1, st).
Proof. intros Hs. cbn [flush_loop]. rewrite Hs. reflexivity. Qed.

(** Whatever the loop does, it only writes. *)
Lemma flush_loop_frame P cb port : forall fuel wlen off r st res st',
  flush_loop P fuel cb port wlen off r st = Some (res, st') ->
  exists tr, Forall (fun ev => is_write ev = true) tr /\ io_frame st st' tr.
Proof.
  induction fuel as [|fuel IH]; intros wlen off r st res st' H; [discriminate|].
  destruct (USE_SSL P && ssl_in_use port) eqn:Es.
  - rewrite flush_loop_step_ssl in H by exact Es. cbv zeta in H.
    repeat match type of H with
           | (if ?c then _ else _) = _ => destruct c
           end;
      try (injection H as _ <-; exists []; split; [constructor | apply io_frame_refl]);
      eapply IH; eassumption.
  - rewrite flush_loop_step in H by exact Es. cbv zeta in H.
    pose proof (write_frame (sock port) (sub_bytes (buf cb) off wlen) st) as F.
    set (st1 := snd (Host.write (sock port) (sub_bytes (buf cb) off wlen) st)) in *.
    set (ev := EvWrite (sock port) (sub_bytes (buf cb) off wlen)
                 (wr_oracle st (wr_count st))) in *.
    assert (Hev : Forall (fun ev => is_write ev = true) [ev])
      by (repeat constructor).
    repeat match type of H with
           | (if ?c then _ else _) = _ => destruct c
           end;
      try (injection H as _ <-; exists [ev]; split; [exact Hev | exact F]);
      (apply IH in H; destruct H as (tr & Htr & F2);
       exists ([ev] ++ tr); split;
       [apply Forall_app; split; assumption | eapply io_frame_trans; eassumption]).
Qed.

Lemma next_writes_shift st st1 k :
  wr_oracle st1 = wr_oracle st -> wr_count st1 = S (wr_count st) ->
  next_writes st (S k) = wr_oracle st (wr_count st) :: next_writes st1 k.
Proof.
  intros Ho Hc. unfold next_writes. cbn [seq map]. rewrite Nat.add_0_r. f_equal.
  rewrite <- seq_shift, map_map. apply map_ext. intros i.
  rewrite Ho, Hc. f_equal. lia.
Qed.

(** Interrupted and partial writes are absorbed: with enough fuel the loop
    reaches the write that fails with [e] and returns on it, having made
    exactly the writes of [write_events]. *)
Lemma flush_loop_run P cb port : forall pre fuel wlen off r st e,
  plain_transport P port ->
  0 < wlen <= CInt.INT_MAX -> 0 <= off -> off + wlen <= CInt.INT_MAX ->
  keeps_going P wlen pre = true ->
  next_writes st (S (List.length pre)) = pre ++ [WrErr e] ->
  e <> EINTR P ->
  (List.length pre < fuel)%nat ->
  exists st',
    flush_loop P fuel cb port wlen off r st = Some (errno_code P e, st')
    /\ io_frame st st' (write_events (sock port) (buf cb) off wlen (pre ++ [WrErr e])).
Proof.
  induction pre as [|x pre IH]; intros fuel wlen off r st e Hp Hw Ho Hsum Hk Hn He Hf;
    (destruct fuel as [|fuel]; [cbn [List.length] in Hf; lia|]);
    rewrite flush_loop_step by exact Hp; cbv zeta;
    pose proof (write_count (sock port) (sub_bytes (buf cb) off wlen) st) as [Hc Hor];
    pose proof (write_frame (sock port) (sub_bytes (buf cb) off wlen) st) as F;
    rewrite (next_writes_shift st _ _ Hor Hc) in Hn;
    cbn [app] in Hn.
  - injection Hn as Hhd. rewrite Hhd in F.
    rewrite (write_err _ _ _ _ Hhd) in *. cbn [fst snd errno set_errno] in *.
    change (CInt.to_int (-1)) with (-1). change (0 <? -1) with false. cbv iota.
    apply Z.eqb_neq in He. rewrite He.
    cbn [app write_events]. unfold errno_code.
    destruct ((e =? EAGAIN P) || (e =? EWOULDBLOCK P)); eauto.
  - injection Hn as Hhd Htl. rewrite Hhd in F.
    cbn [List.length] in Hf. cbn [keeps_going] in Hk.
    cbn [app write_events]. destruct x as [n|e'].
    + apply andb_true_iff in Hk as [Hk Hk'].
      apply andb_true_iff in Hk as [Hn0 Hn1].
      apply Z.ltb_lt in Hn0. apply Z.ltb_lt in Hn1.
      unfold CInt.INT_MAX in *.
      rewrite (write_ret _ _ _ _ Hhd) in *. cbn [fst snd] in *.
      rewrite !CIntFacts.to_int_id
        by (unfold CInt.in_int, CInt.INT_MIN, CInt.INT_MAX; lia).
      destruct (Z.ltb_spec 0 n) as [_|]; [|lia].
      destruct (Z.eqb_spec (wlen - n) 0) as [|_]; [lia|].
      destruct (Z.ltb_spec (wlen - n) 0) as [|_]; [lia|].
      edestruct (IH fuel (wlen - n) (off + n) n) as (st' & Hrun & F');
        try eassumption; try lia.
      exists st'. split; [exact Hrun|].
      exact (io_frame_trans _ _ _ _ _ F F').
    + apply andb_true_iff in Hk as [He' Hk'].
      rewrite (write_err _ _ _ _ Hhd) in *. cbn [fst snd errno set_errno] in *.
      change (CInt.to_int (-1)) with (-1). change (0 <? -1) with false. cbv iota.
      rewrite He'.
      edestruct (IH fuel wlen off (-1)) as (st' & Hrun & F');
        try eassumption; try lia.
      exists st'. split; [exact Hrun|].
      exact (io_frame_trans _ _ _ _ _ F F').
Qed.

(** On an SSL port the loop writes nothing and leaves the state alone;
    what it returns is decided by the value that [r] happens to hold and by
    the [errno] it finds. *)
Lemma flush_loop_ssl_silent P cb port : forall fuel wlen off r st res st',
  USE_SSL P && ssl_in_use port = true ->
  flush_loop P fuel cb port wlen off r st = Some (res, st') -> st' = st.
Proof.
  induction fuel as [|fuel IH]; intros wlen off r st res st' Hs H; [discriminate|].
  rewrite flush_loop_step_ssl in H by exact Hs. cbv zeta in H.
  repeat match type of H with
         | (if ?c then _ else _) = _ => destruct c
         end;
    try (injection H as _ <-; reflexivity);
    eapply IH; eassumption.
Qed.

Lemma maybeScheduleAlarm_result P st :
  maybeScheduleAlarm P st
  = (true, armed_after (MILLISECONDS (pg_retire_interval st)) st)
  \/ maybeScheduleAlarm P st = (false, st).
Proof.
  unfold maybeScheduleAlarm, armed_after.
  repeat match goal with
         | |- context [if ?c then _ else _] => destruct c
         end; auto.
Qed.

(** ** The probe and the alarm handler *)

Lemma dummy_message_pos P port stack :
  List.length stack = Z.to_nat WBUFSIZE ->
  pos (dummy_message P port stack) = total_len (dummy_appends P port)
  /\ 0 < total_len (dummy_appends P port) <= WBUFSIZE.
Proof.
  intros Hs.
  assert (Hfit : 0 < total_len (dummy_appends P port) <= WBUFSIZE).
  { rewrite dummy_appends_total. unfold WBUFSIZE.
    destruct (3 <=? Host.PG_PROTOCOL_MAJOR (proto port)); lia. }
  split; [|exact Hfit].
  apply (append_all_message (dummy_appends P port) stack Hs
           (dummy_appends_readable P port)). lia.
Qed.

(** A probe whose writes are interrupted or partial and then fail with [e]
    returns on that failure, having done nothing but write. *)
Lemma probe_run P st pre e fuel :
  List.length (stack_buf st) = Z.to_nat WBUFSIZE ->
  plain_transport P (MyProcPort st) ->
  keeps_going P (total_len (dummy_appends P (MyProcPort st))) pre = true ->
  next_writes st (S (List.length pre)) = pre ++ [WrErr e] ->
  e <> EINTR P ->
  (List.length pre < fuel)%nat ->
  exists st',
    send_dummy_message_to_frontend P fuel st = Some (errno_code P e, st')
    /\ io_frame st st' (probe_writes P st (pre ++ [WrErr e])).
Proof.
  intros Hs Hp Hk Hn He Hf.
  destruct (dummy_message_pos P (MyProcPort st) (stack_buf st) Hs) as [Epos Hlen].
  unfold WBUFSIZE in Hlen.
  unfold send_dummy_message_to_frontend, flush_cbuf, probe_writes. rewrite Epos.
  destruct (Z.eqb_spec (total_len (dummy_appends P (MyProcPort st))) 0) as [|_]; [lia|].
  apply flush_loop_run; try assumption; unfold CInt.INT_MAX; lia.
Qed.

Lemma cancelTransaction_trace P st :
  trace (cancelTransaction P st) = trace st ++ cancel_signals P st.
Proof.
  unfold cancelTransaction, cancel_signals, Host.kill.
  destruct (HAVE_SETSID P); cbn [emit trace MyProcPid app];
    rewrite <- ?app_assoc; reflexivity.
Qed.

Lemma io_frame_fields st st' tr :
  io_frame st st' tr ->
  MyTimeoutId st' = MyTimeoutId st
  /\ timeout_indicator st' = timeout_indicator st
  /\ timeout_fin_time st' = timeout_fin_time st
  /\ clock st' = clock st
  /\ pg_retire_interval st' = pg_retire_interval st
  /\ MyProcPid st' = MyProcPid st
  /\ trace st' = trace st ++ tr.
Proof. unfold io_frame. intros ->. repeat split. Qed.

(** Input and output do not change what the scheduler decides. *)
Lemma maybeScheduleAlarm_after_io P st st' tr :
  io_frame st st' tr ->
  trace (snd (maybeScheduleAlarm P st')) = trace st' ++ rearm_events P st.
Proof.
  intros F. destruct (io_frame_fields _ _ _ F) as (E1 & E2 & E3 & E4 & E5 & _).
  unfold rearm_events, maybeScheduleAlarm, TIMEOUT_INVALID,
    Host.get_timeout_indicator, Host.get_timeout_finish_time,
    Host.GetCurrentTimestamp, Host.enable_timeout_after.
  rewrite E1, E2, E3, E4, E5.
  destruct (MyTimeoutId st =? MAX_TIMEOUTS P);
    [|destruct (timeout_indicator st);
      [|destruct (negb (timeout_fin_time st =? 0) && (clock st <? timeout_fin_time st))]];
    cbn [fst snd emit set_deadline trace]; now rewrite ?app_nil_r.
Qed.

Lemma rearm_events_emit P ev st : rearm_events P (emit ev st) = rearm_events P st.
Proof.
  unfold rearm_events, maybeScheduleAlarm, TIMEOUT_INVALID,
    Host.get_timeout_indicator, Host.get_timeout_finish_time,
    Host.GetCurrentTimestamp.
  cbn [emit MyTimeoutId timeout_indicator timeout_fin_time clock pg_retire_interval].
  destruct (MyTimeoutId st =? MAX_TIMEOUTS P);
    [|destruct (timeout_indicator st);
      [|destruct (negb (timeout_fin_time st =? 0) && (clock st <? timeout_fin_time st))]];
    reflexivity.
Qed.

Lemma errno_code_hard P e : hard_error P e -> errno_code P e = -1.
Proof.
  intros (_ & Ha & Hw). unfold errno_code.
  apply Z.eqb_neq in Ha, Hw. now rewrite Ha, Hw.
Qed.

Lemma errno_code_would_block P e : would_block P e -> errno_code P e = 0.
Proof.
  unfold errno_code. intros [-> | ->]; rewrite Z.eqb_refl; [reflexivity|].
  now rewrite orb_true_r.
Qed.

(** C5.  When the handler probes and a write of the probe fails with an
    [errno] other than EINTR, EAGAIN and EWOULDBLOCK (after any number of
    interrupted or partial writes), the assessment is that the client is
    down and [cancelTransaction] runs once: between blocking and unblocking
    the signals, the handler makes the writes of the probe and then sends
    SIGINT to the process group (if the build has [setsid]) and, in every
    build, SIGINT to the backend itself, and it does nothing else. *)
Theorem hard_write_error_cancels_once
        (P : Platform) (st : State) (pre : list wresp) (e : Z) (fuel : nat) :
  interrupt_pending_return st = false ->
  plain_transport P (MyProcPort st) ->
  List.length (stack_buf st) = Z.to_nat WBUFSIZE ->
  keeps_going P (total_len (dummy_appends P (MyProcPort st))) pre = true ->
  next_writes st (S (List.length pre)) = pre ++ [WrErr e] ->
  hard_error P e ->
  (List.length pre < fuel)%nat ->
  exists st_probe st',
    doSanityCheck P fuel (Host.PG_SETMASK true st) = Some (false, st_probe)
    /\ pg_retire_alarm_handler P fuel st = Some st'
    /\ trace st'
       = trace st ++ [EvSetMask true]
         ++ probe_writes P st (pre ++ [WrErr e])
         ++ (if HAVE_SETSID P then [EvKill (- MyProcPid st) (SIGINT P)] else [])
         ++ [EvKill (MyProcPid st) (SIGINT P)]
         ++ [EvSetMask false].
Proof.
  intros Hi Hp Hs Hk Hn Hh Hf.
  destruct (probe_run P (Host.PG_SETMASK true st) pre e fuel)
    as (st2 & Hsend & F); try assumption; [apply Hh|].
  rewrite (errno_code_hard P e Hh) in Hsend.
  exists st2, (set_errno (errno st) (Host.PG_SETMASK false (cancelTransaction P st2))).
  unfold pg_retire_alarm_handler, doSanityCheck. rewrite Hi, Hsend.
  change (negb (-1 =? 0)) with true. cbv iota.
  repeat split.
  cbn [set_errno Host.PG_SETMASK emit trace].
  rewrite cancelTransaction_trace.
  unfold cancel_signals. rewrite F.
  cbn [with_io trace MyProcPid Host.PG_SETMASK emit].
  rewrite <- !app_assoc. reflexivity.
Qed.

Lemma hard_write_error_cancels_once_witness :
  let st := backend true 10 false false (port_v3 false) true 5000000
              (fun i => match i with
                        | O => WrRet 10
                        | S O => WrErr 4
                        | _ => WrErr 104
                        end) in
  let msg := [83] ++ be32 47 ++ cstring PGRETIRE_DUMMY_PAREMETER_NAME
             ++ cstring PGRETIRE_DUMMY_PAREMETER_VALUE in
  exists st_probe st',
    doSanityCheck linux_x86_64 3 (Host.PG_SETMASK true st) = Some (false, st_probe)
    /\ pg_retire_alarm_handler linux_x86_64 3 st = Some st'
    /\ trace st'
       = [ EvSetMask true;
           EvWrite 7 msg (WrRet 10);
           EvWrite 7 (skipn 10 msg) (WrErr 4);
           EvWrite 7 (skipn 10 msg) (WrErr 104);
           EvKill (-4242) 2;
           EvKill 4242 2;
           EvSetMask false ].
Proof.
  intros st msg.
  apply (hard_write_error_cancels_once linux_x86_64 st [WrRet 10; WrErr 4] 104 3).
  - reflexivity.
  - reflexivity.
  - reflexivity.
  - reflexivity.
  - reflexivity.
  - unfold hard_error. simpl. lia.
  - simpl. lia.
Defined.

Lemma write_events_not_kill fd b resps : forall off wlen,
  Forall not_kill (write_events fd b off wlen resps).
Proof.
  induction resps as [|r resps IH]; intros off wlen; cbn [write_events];
    [constructor|].
  constructor; [reflexivity|]. destruct r; apply IH.
Qed.

Lemma rearm_events_not_kill P st : Forall not_kill (rearm_events P st).
Proof.
  unfold rearm_events. destruct (fst (maybeScheduleAlarm P st)); repeat constructor.
Qed.

(** C4.  Transient write errors do not condemn the client.  (1) When a
    write of the probe fails with EAGAIN or EWOULDBLOCK, after any number
    of interrupted or partial writes, [flush_cbuf] returns 0, the sanity
    check answers true, and the handler makes the writes of the probe,
    asks the scheduler to rearm and sends no signal.  (2) When a write is
    interrupted (EINTR), the loop goes round with the same offset and the
    same count, so the same bytes are written again.  (3) When a write
    takes [n] bytes of the [wlen] that remain, [0 < n < wlen], the loop
    goes round with the offset moved by [n] and [wlen - n] bytes left. *)
Theorem flush_tolerates_transient_errors (P : Platform) :
  platform_ok P ->
  (forall st pre e fuel,
      interrupt_pending_return st = false ->
      plain_transport P (MyProcPort st) ->
      List.length (stack_buf st) = Z.to_nat WBUFSIZE ->
      keeps_going P (total_len (dummy_appends P (MyProcPort st))) pre = true ->
      next_writes st (S (List.length pre)) = pre ++ [WrErr e] ->
      would_block P e ->
      (List.length pre < fuel)%nat ->
      exists st_probe st',
        send_dummy_message_to_frontend P fuel (Host.PG_SETMASK true st)
        = Some (0, st_probe)
        /\ doSanityCheck P fuel (Host.PG_SETMASK true st) = Some (true, st_probe)
        /\ pg_retire_alarm_handler P fuel st = Some st'
        /\ trace st'
           = trace st ++ [EvSetMask true]
             ++ probe_writes P st (pre ++ [WrErr e])
             ++ rearm_events P st
             ++ [EvSetMask false]
        /\ Forall not_kill (probe_writes P st (pre ++ [WrErr e]) ++ rearm_events P st))
  /\ (forall fuel cb port wlen off r st,
         plain_transport P port ->
         wr_oracle st (wr_count st) = WrErr (EINTR P) ->
         flush_loop P (S fuel) cb port wlen off r st
         = flush_loop P fuel cb port wlen off (-1)
             (snd (Host.write (sock port) (sub_bytes (buf cb) off wlen) st)))
  /\ (forall fuel cb port wlen off r st n,
         plain_transport P port ->
         wr_oracle st (wr_count st) = WrRet n ->
         0 < n < wlen -> wlen <= CInt.INT_MAX ->
         0 <= off -> off + n <= CInt.INT_MAX ->
         flush_loop P (S fuel) cb port wlen off r st
         = flush_loop P fuel cb port (wlen - n) (off + n) n
             (snd (Host.write (sock port) (sub_bytes (buf cb) off wlen) st))).
Proof.
  intros [Hia Hiw]. split; [|split].
  - intros st pre e fuel Hi Hp Hs Hk Hn Hb Hf.
    assert (He : e <> EINTR P) by (destruct Hb; congruence).
    destruct (probe_run P (Host.PG_SETMASK true st) pre e fuel)
      as (st2 & Hsend & F); try assumption.
    rewrite (errno_code_would_block P e Hb) in Hsend.
    pose proof (maybeScheduleAlarm_after_io P _ _ _ F) as E2.
    unfold Host.PG_SETMASK in E2. rewrite rearm_events_emit in E2.
    exists st2,
      (set_errno (errno st) (Host.PG_SETMASK false (snd (maybeScheduleAlarm P st2)))).
    unfold pg_retire_alarm_handler, doSanityCheck. rewrite Hi, Hsend.
    change (negb (0 =? 0)) with false. cbv iota.
    repeat split.
    + cbn [set_errno Host.PG_SETMASK emit trace]. rewrite E2, F.
      cbn [with_io trace Host.PG_SETMASK emit].
      rewrite <- !app_assoc. reflexivity.
    + apply Forall_app. split;
        [apply write_events_not_kill | apply rearm_events_not_kill].
  - intros fuel cb port wlen off r st Hp Ho.
    rewrite flush_loop_step by exact Hp. cbv zeta.
    rewrite (write_err _ _ _ _ Ho). cbn [fst snd errno set_errno].
    change (CInt.to_int (-1)) with (-1). change (0 <? -1) with false. cbv iota.
    now rewrite Z.eqb_refl.
  - intros fuel cb port wlen off r st n Hp Ho Hn Hw Hoff Hsum.
    rewrite flush_loop_step by exact Hp. cbv zeta.
    rewrite (write_ret _ _ _ _ Ho). cbn [fst snd].
    unfold CInt.INT_MAX in *.
    rewrite !CIntFacts.to_int_id
      by (unfold CInt.in_int, CInt.INT_MIN, CInt.INT_MAX; lia).
    destruct (Z.ltb_spec 0 n) as [_|]; [|lia].
    destruct (Z.eqb_spec (wlen - n) 0) as [|_]; [lia|].
    destruct (Z.ltb_spec (wlen - n) 0) as [|_]; [lia|].
    reflexivity.
Qed.

Lemma flush_tolerates_transient_errors_witness :
  let st := backend true 10 false false (port_v2 false) true 5000000
              (fun i => match i with
                        | O => WrErr 4
                        | S O => WrRet 30
                        | _ => WrErr 11
                        end) in
  let msg := [78] ++ cstring PGRETIRE_KEEP_ALIVE_MESSAGE in
  exists st_probe st',
    send_dummy_message_to_frontend linux_x86_64 3 (Host.PG_SETMASK true st)
    = Some (0, st_probe)
    /\ doSanityCheck linux_x86_64 3 (Host.PG_SETMASK true st) = Some (true, st_probe)
    /\ pg_retire_alarm_handler linux_x86_64 3 st = Some st'
    /\ trace st'
       = [ EvSetMask true;
           EvWrite 7 msg (WrErr 4);
           EvWrite 7 msg (WrRet 30);
           EvWrite 7 (skipn 30 msg) (WrErr 11);
           EvEnableTimeoutAfter 8 10000;
           EvSetMask false ]
    /\ Forall not_kill
         [ EvWrite 7 msg (WrErr 4);
           EvWrite 7 msg (WrRet 30);
           EvWrite 7 (skipn 30 msg) (WrErr 11);
           EvEnableTimeoutAfter 8 10000 ].
Proof.
  intros st msg.
  assert (Hok : platform_ok linux_x86_64) by (unfold platform_ok; simpl; lia).
  apply (proj1 (flush_tolerates_transient_errors linux_x86_64 Hok)
           st [WrErr 4; WrRet 30] 11 3%nat).
  - reflexivity.
  - reflexivity.
  - reflexivity.
  - reflexivity.
  - reflexivity.
  - left. reflexivity.
  - simpl. lia.
Defined.

(** ** The enable switch *)

(** The hook that runs after parse analysis honours the switch: with
    [pg_retire.enable] off it arms nothing. *)
Lemma post_parse_analyze_disabled P query st :
  pg_retire_enable st = false ->
  pg_retire_post_parse_analyze P query st = call_prev_post_parse_analyze st.
Proof.
  intros H. unfold pg_retire_post_parse_analyze.
  replace (pg_retire_enable (call_prev_post_parse_analyze st)) with false
    by (unfold call_prev_post_parse_analyze; now destruct (prev_post_parse_analyze st)).
  now rewrite orb_true_r.
Qed.

Lemma flush_loop_set_enable P b cb port : forall fuel wlen off r st,
  flush_loop P fuel cb port wlen off r (set_enable b st)
  = option_map (fun x => (fst x, set_enable b (snd x)))
               (flush_loop P fuel cb port wlen off r st).
Proof.
  induction fuel as [|fuel IH]; intros wlen off r st; [reflexivity|].
  cbn [flush_loop]. destruct (USE_SSL P && ssl_in_use port).
  - cbn [errno set_enable].
    repeat match goal with
           | |- context [if ?c then _ else _] => destruct c
           end; try reflexivity; apply IH.
  - unfold Host.write. cbn [wr_oracle wr_count set_enable].
    destruct (wr_oracle st (wr_count st)) as [n|e];
      cbn [errno set_errno emit next_write set_enable];
      repeat match goal with
             | |- context [if ?c then _ else _] => destruct c
             end; try reflexivity;
      match goal with
      | |- _ = option_map _ (flush_loop _ _ _ _ ?w ?o ?r' ?s) => exact (IH w o r' s)
      end.
Qed.

Lemma send_dummy_set_enable P b fuel st :
  send_dummy_message_to_frontend P fuel (set_enable b st)
  = option_map (fun x => (fst x, set_enable b (snd x)))
               (send_dummy_message_to_frontend P fuel st).
Proof.
  unfold send_dummy_message_to_frontend, flush_cbuf.
  cbn [set_enable MyProcPort stack_buf stack_r].
  destruct (pos (dummy_message P (MyProcPort st) (stack_buf st)) =? 0);
    [reflexivity | apply flush_loop_set_enable].
Qed.

Lemma maybeScheduleAlarm_set_enable P b st :
  snd (maybeScheduleAlarm P (set_enable b st))
  = set_enable b (snd (maybeScheduleAlarm P st)).
Proof.
  unfold maybeScheduleAlarm, TIMEOUT_INVALID, Host.get_timeout_indicator,
    Host.get_timeout_finish_time, Host.GetCurrentTimestamp.
  cbn [set_enable MyTimeoutId timeout_indicator timeout_fin_time clock
       pg_retire_interval].
  destruct (MyTimeoutId st =? MAX_TIMEOUTS P);
    [|destruct (timeout_indicator st);
      [|destruct (negb (timeout_fin_time st =? 0) && (clock st <? timeout_fin_time st))]];
    reflexivity.
Qed.

Lemma cancelTransaction_set_enable P b st :
  cancelTransaction P (set_enable b st) = set_enable b (cancelTransaction P st).
Proof. unfold cancelTransaction. destruct (HAVE_SETSID P); reflexivity. Qed.

(** The handler runs the same whatever [pg_retire.enable] holds: the
    switch is carried along and never read. *)
Lemma alarm_handler_set_enable P b fuel st :
  pg_retire_alarm_handler P fuel (set_enable b st)
  = option_map (set_enable b) (pg_retire_alarm_handler P fuel st).
Proof.
  unfold pg_retire_alarm_handler, doSanityCheck.
  change (interrupt_pending_return (set_enable b st))
    with (interrupt_pending_return st).
  destruct (interrupt_pending_return st); [reflexivity|].
  change (Host.PG_SETMASK true (set_enable b st))
    with (set_enable b (Host.PG_SETMASK true st)).
  rewrite send_dummy_set_enable.
  destruct (send_dummy_message_to_frontend P fuel (Host.PG_SETMASK true st))
    as [[code st2]|]; [|reflexivity].
  cbn [option_map fst snd].
  destruct (negb (code =? 0)); cbn [option_map].
  - rewrite cancelTransaction_set_enable. reflexivity.
  - rewrite maybeScheduleAlarm_set_enable. reflexivity.
Qed.

(** C1.  The alarm handler does not look at [pg_retire.enable]: with the
    switch off, a deadline that fires still makes the handler write the
    probe to the client socket and, the write having succeeded, arm the
    next deadline ten seconds ahead. *)
Theorem alarm_handler_ignores_enable :
  let st := backend false 10 false false (port_v3 false) true 5000000
              (fun _ => WrRet 48) in
  pg_retire_enable st = false
  /\ exists st',
      pg_retire_alarm_handler linux_x86_64 1 st = Some st'
      /\ trace st'
         = [ EvSetMask true;
             EvWrite 7 ([83] ++ be32 47
                        ++ cstring PGRETIRE_DUMMY_PAREMETER_NAME
                        ++ cstring PGRETIRE_DUMMY_PAREMETER_VALUE) (WrRet 48);
             EvEnableTimeoutAfter 8 10000;
             EvSetMask false ]
      /\ timeout_indicator st' = false
      /\ timeout_fin_time st' = clock st + 10 * 1000 * 1000.
Proof.
  intros st. split; [reflexivity|].
  eexists. split; [vm_compute; reflexivity|].
  repeat split.
Qed.

(** ** Encrypted transport *)

(** On an SSL port nothing is written, and the probe fails as soon as [r]
    holds a value that is not positive and [errno] is not one of the three
    that the loop tolerates. *)
Lemma ssl_probe_fails P st fuel :
  USE_SSL P && ssl_in_use (MyProcPort st) = true ->
  List.length (stack_buf st) = Z.to_nat WBUFSIZE ->
  stack_r st <= 0 ->
  hard_error P (errno st) ->
  send_dummy_message_to_frontend P (S fuel) st = Some (-1, st).
Proof.
  intros Hs Hl Hr (He & Ha & Hw).
  destruct (dummy_message_pos P (MyProcPort st) (stack_buf st) Hl) as [Epos Hlen].
  unfold send_dummy_message_to_frontend, flush_cbuf. rewrite Epos.
  destruct (Z.eqb_spec (total_len (dummy_appends P (MyProcPort st))) 0) as [|_]; [lia|].
  rewrite flush_loop_step_ssl by exact Hs.
  destruct (Z.ltb_spec 0 (stack_r st)) as [|_]; [lia|].
  apply Z.eqb_neq in He, Ha, Hw. now rewrite He, Ha, Hw.
Qed.

(** C7.  On a port that uses SSL the handler writes nothing, but the
    assessment is not always "alive": [r] is read without having been
    assigned, and when it holds 0 and [errno] is 0 the flush returns -1, the
    sanity check answers false and SIGINT is sent. *)
Theorem ssl_port_can_be_cancelled :
  let st := backend true 10 false false (port_v3 true) true 5000000
              (fun _ => WrRet 48) in
  USE_SSL linux_x86_64 && ssl_in_use (MyProcPort st) = true
  /\ doSanityCheck linux_x86_64 1 (Host.PG_SETMASK true st)
     = Some (false, Host.PG_SETMASK true st)
  /\ exists st',
      pg_retire_alarm_handler linux_x86_64 1 st = Some st'
      /\ trace st'
         = [EvSetMask true; EvKill (-4242) 2; EvKill 4242 2; EvSetMask false].
Proof.
  intros st. split; [reflexivity|]. split; [vm_compute; reflexivity|].
  eexists. split; [vm_compute; reflexivity|]. reflexivity.
Qed.

(** ** The interval *)

(** Up to 2147483 seconds the conversion to milliseconds is exact, and the
    deadline is armed that far from now. *)
Lemma maybeScheduleAlarm_interval_exact P st :
  MyTimeoutId st <> MAX_TIMEOUTS P ->
  timeout_indicator st = true ->
  0 <= pg_retire_interval st <= 2147483 ->
  maybeScheduleAlarm P st
  = (true, armed_after (pg_retire_interval st * 1000) st)
  /\ timeout_fin_time (armed_after (pg_retire_interval st * 1000) st)
     = clock st + pg_retire_interval st * 1000 * 1000.
Proof.
  intros Hv Hf Hi. unfold maybeScheduleAlarm, TIMEOUT_INVALID, Host.get_timeout_indicator.
  apply Z.eqb_neq in Hv. rewrite Hv, Hf, (MILLISECONDS_exact _ Hi).
  split; reflexivity.
Qed.

(** Beyond 2147483 seconds the product does not fit into an [int], and
    whatever [MILLISECONDS] yields is not the number of milliseconds. *)
Lemma MILLISECONDS_overflow sec :
  2147483 < sec -> MILLISECONDS sec <> sec * 1000.
Proof.
  intros H E. pose proof (CIntFacts.to_int_range (sec * 1000)) as R.
  unfold MILLISECONDS in E. rewrite E in R.
  unfold CInt.in_int, CInt.INT_MIN, CInt.INT_MAX in R. lia.
Qed.

(** C9.  The interval may be set up to [INT_MAX] seconds, but
    [MILLISECONDS] multiplies in [int]: at 2147484 seconds the product
    2147484000 does not fit, the delay handed to the timer is negative, and
    the deadline is armed in the past instead of 2147484 seconds ahead. *)
Theorem interval_milliseconds_overflow :
  let st := backend true 2147484 false false (port_v3 false) true 5000000
              (fun _ => WrRet 48) in
  interval_accepted (pg_retire_interval st)
  /\ CInt.INT_MAX < pg_retire_interval st * 1000
  /\ MILLISECONDS (pg_retire_interval st) = -2147483296
  /\ exists st',
      pg_retire_alarm_handler linux_x86_64 1 st = Some st'
      /\ filter is_enable (trace st') = [EvEnableTimeoutAfter 8 (-2147483296)]
      /\ timeout_fin_time st' < clock st'
      /\ timeout_fin_time st' <> clock st' + pg_retire_interval st * 1000 * 1000.
Proof.
  intros st.
  unfold interval_accepted, pg_retire_interval_min, pg_retire_interval_max, CInt.INT_MAX.
  split; [cbn; lia|]. split; [cbn; lia|]. split; [reflexivity|].
  eexists. split; [vm_compute; reflexivity|].
  split; [reflexivity|]. split; [reflexivity|]. cbn. lia.
Qed.

(** ** The rearm path *)

(** C8.  The hook that runs after parse analysis arms nothing and leaves
    the state as the previous hook left it when the statement is a utility
    statement, and likewise when [InterruptPending] is set and no message
    of a parallel worker is pending. *)
Theorem post_parse_analyze_guards (P : Platform) (query : Query) (st : State) :
  commandType query = CMD_UTILITY
  \/ (InterruptPending st = true /\ ParallelMessagePending st = false) ->
  pg_retire_post_parse_analyze P query st = call_prev_post_parse_analyze st.
Proof.
  intros H. unfold pg_retire_post_parse_analyze.
  assert (Ei : interrupt_pending_return (call_prev_post_parse_analyze st)
               = interrupt_pending_return st)
    by (unfold call_prev_post_parse_analyze; now destruct (prev_post_parse_analyze st)).
  destruct (TIMEOUT_INVALID P (call_prev_post_parse_analyze st)
            || negb (pg_retire_enable (call_prev_post_parse_analyze st)));
    [reflexivity|].
  rewrite Ei. destruct H as [Hu | [Hi Hp]].
  - rewrite Hu. now destruct (interrupt_pending_return st).
  - unfold interrupt_pending_return. now rewrite Hi, Hp.
Qed.

Lemma post_parse_analyze_guards_witness :
  pg_retire_post_parse_analyze linux_x86_64 {| commandType := CMD_SELECT |}
    (backend true 10 true false (port_v3 false) false 0 (fun _ => WrRet 48))
  = backend true 10 true false (port_v3 false) false 0 (fun _ => WrRet 48).
Proof.
  apply (post_parse_analyze_guards linux_x86_64 {| commandType := CMD_SELECT |}
           (backend true 10 true false (port_v3 false) false 0 (fun _ => WrRet 48))).
  right. split; reflexivity.
Defined.

(** C8 as first stated (skipped whenever [InterruptPending] is set) fails:
    with [InterruptPending] set and a message of a parallel worker pending
    as well, the hook is not skipped, and for a SELECT it arms the
    deadline. *)
Lemma post_parse_analyze_arms_while_interrupt_pending :
  let st := backend true 10 true true (port_v3 false) false 0 (fun _ => WrRet 48) in
  let q := {| commandType := CMD_SELECT |} in
  InterruptPending st = true
  /\ trace (pg_retire_post_parse_analyze linux_x86_64 q st)
     = [EvEnableTimeoutAfter 8 10000]
  /\ pg_retire_post_parse_analyze linux_x86_64 q st <> call_prev_post_parse_analyze st.
Proof.
  intros st q. split; [reflexivity|]. split; [reflexivity|].
  intros H. apply (f_equal trace) in H. discriminate H.
Qed.

(** ** Remarks *)

(** On an SSL port, with [r] not positive and [errno] at EINTR, the loop
    never returns: no amount of fuel is enough. *)
Lemma ssl_flush_spins P cb port : forall fuel wlen off r st,
  USE_SSL P && ssl_in_use port = true ->
  r <= 0 -> errno st = EINTR P ->
  flush_loop P fuel cb port wlen off r st = None.
Proof.
  induction fuel as [|fuel IH]; intros wlen off r st Hs Hr He; [reflexivity|].
  rewrite flush_loop_step_ssl by exact Hs.
  destruct (Z.ltb_spec 0 r) as [|_]; [lia|].
  rewrite He, Z.eqb_refl. now apply IH.
Qed.

(** The bounds test of [write_cbuf] is made modulo 2^64: a [len] that is not
    the size of any object can pass it.  This is why the appended bytes are
    required to be [readable]. *)
Lemma write_cbuf_test_wraps :
  (CInt.to_size_t (CInt.to_size_t 1 + CInt.SIZE_MAX) <=? WBUFSIZE) = true.
Proof. reflexivity. Qed.

(** * Further properties *)

(** ** What a run of the handler touches *)

Lemma send_dummy_frame P fuel st code st2 :
  send_dummy_message_to_frontend P fuel st = Some (code, st2) ->
  exists tr, Forall (fun ev => is_write ev = true) tr /\ io_frame st st2 tr.
Proof.
  unfold send_dummy_message_to_frontend, flush_cbuf.
  destruct (pos (dummy_message P (MyProcPort st) (stack_buf st)) =? 0).
  - intros H. injection H as _ <-. exists []. split; [constructor | apply io_frame_refl].
  - apply flush_loop_frame.
Qed.

Lemma io_frame_same st st' tr :
  io_frame st st' tr ->
  pg_retire_enable st' = pg_retire_enable st
  /\ pg_retire_interval st' = pg_retire_interval st
  /\ MyTimeoutId st' = MyTimeoutId st
  /\ InterruptPending st' = InterruptPending st
  /\ ParallelMessagePending st' = ParallelMessagePending st
  /\ MyProcPid st' = MyProcPid st
  /\ MyProcPort st' = MyProcPort st
  /\ clock st' = clock st.
Proof. unfold io_frame. intros ->. repeat split. Qed.

Lemma maybeScheduleAlarm_same P st :
  let st' := snd (maybeScheduleAlarm P st) in
  pg_retire_enable st' = pg_retire_enable st
  /\ pg_retire_interval st' = pg_retire_interval st
  /\ MyTimeoutId st' = MyTimeoutId st
  /\ InterruptPending st' = InterruptPending st
  /\ ParallelMessagePending st' = ParallelMessagePending st
  /\ MyProcPid st' = MyProcPid st
  /\ MyProcPort st' = MyProcPort st
  /\ clock st' = clock st
  /\ errno st' = errno st.
Proof.
  destruct (maybeScheduleAlarm_result P st) as [-> | ->]; cbn [snd]; repeat split.
Qed.

Lemma cancelTransaction_same P st :
  let st' := cancelTransaction P st in
  pg_retire_enable st' = pg_retire_enable st
  /\ pg_retire_interval st' = pg_retire_interval st
  /\ MyTimeoutId st' = MyTimeoutId st
  /\ InterruptPending st' = InterruptPending st
  /\ ParallelMessagePending st' = ParallelMessagePending st
  /\ MyProcPid st' = MyProcPid st
  /\ MyProcPort st' = MyProcPort st
  /\ clock st' = clock st.
Proof.
  unfold cancelTransaction. destruct (HAVE_SETSID P); repeat split.
Qed.

(** The handler once the probe has answered: the verdict follows the code,
    between the two mask changes. *)
Lemma handler_after_probe P fuel st code st2 tr :
  interrupt_pending_return st = false ->
  send_dummy_message_to_frontend P fuel (Host.PG_SETMASK true st) = Some (code, st2) ->
  io_frame (Host.PG_SETMASK true st) st2 tr ->
  exists st',
    pg_retire_alarm_handler P fuel st = Some st'
    /\ same_backend st st'
    /\ trace st'
       = trace st ++ [EvSetMask true] ++ tr ++ verdict_events P code st
         ++ [EvSetMask false].
Proof.
  intros Hi Hsend F.
  pose proof (io_frame_same _ _ _ F) as (A1 & A2 & A3 & A4 & A5 & A6 & A7 & A8).
  cbn [Host.PG_SETMASK emit pg_retire_enable pg_retire_interval MyTimeoutId
       InterruptPending ParallelMessagePending MyProcPid MyProcPort clock]
    in A1, A2, A3, A4, A5, A6, A7, A8.
  unfold pg_retire_alarm_handler, doSanityCheck, verdict_events.
  rewrite Hi, Hsend.
  destruct (code =? 0); cbn [negb]; cbv iota; eexists; (split; [reflexivity|]).
  - pose proof (maybeScheduleAlarm_same P st2) as (B1 & B2 & B3 & B4 & B5 & B6 & B7 & B8 & _).
    cbv zeta in B1, B2, B3, B4, B5, B6, B7, B8.
    split.
    + unfold same_backend.
      cbn [set_errno Host.PG_SETMASK emit pg_retire_enable pg_retire_interval
           MyTimeoutId InterruptPending ParallelMessagePending errno MyProcPid
           MyProcPort clock].
      repeat split; congruence.
    + pose proof (maybeScheduleAlarm_after_io P _ _ _ F) as E2.
      unfold Host.PG_SETMASK in E2. rewrite rearm_events_emit in E2.
      cbn [set_errno Host.PG_SETMASK emit trace]. rewrite E2, F.
      cbn [with_io trace Host.PG_SETMASK emit].
      rewrite <- !app_assoc. reflexivity.
  - pose proof (cancelTransaction_same P st2) as (B1 & B2 & B3 & B4 & B5 & B6 & B7 & B8).
    cbv zeta in B1, B2, B3, B4, B5, B6, B7, B8.
    split.
    + unfold same_backend.
      cbn [set_errno Host.PG_SETMASK emit pg_retire_enable pg_retire_interval
           MyTimeoutId InterruptPending ParallelMessagePending errno MyProcPid
           MyProcPort clock].
      repeat split; congruence.
    + cbn [set_errno Host.PG_SETMASK emit trace].
      rewrite cancelTransaction_trace. unfold cancel_signals. rewrite A6, F.
      cbn [with_io trace Host.PG_SETMASK emit].
      rewrite <- !app_assoc. reflexivity.
Qed.







(** ** Writes that complete *)

Lemma remaining_bounds P : forall pre wlen,
  0 < wlen -> keeps_going P wlen pre = true -> 0 < remaining wlen pre <= wlen.
Proof.
  induction pre as [|x pre IH]; intros wlen Hw Hk; cbn [remaining]; [lia|].
  cbn [keeps_going] in Hk. destruct x as [n|e].
  - apply andb_true_iff in Hk as [Hk Hk'].
    apply andb_true_iff in Hk as [Hn0 Hn1].
    apply Z.ltb_lt in Hn0. apply Z.ltb_lt in Hn1.
    specialize (IH (wlen - n) ltac:(lia) Hk'). lia.
  - apply andb_true_iff in Hk as [_ Hk']. exact (IH wlen Hw Hk').
Qed.

(** The code that [flush_cbuf] returns on a write that takes the [n] bytes
    still to go, or more than were offered. *)
Lemma flush_loop_run_ret P cb port : forall pre fuel wlen off r st n,
  plain_transport P port ->
  0 < wlen <= CInt.INT_MAX -> 0 <= off -> off + wlen <= CInt.INT_MAX ->
  keeps_going P wlen pre = true ->
  next_writes st (S (List.length pre)) = pre ++ [WrRet n] ->
  remaining wlen pre <= n <= CInt.INT_MAX ->
  (List.length pre < fuel)%nat ->
  exists st',
    flush_loop P fuel cb port wlen off r st
    = Some ((if n =? remaining wlen pre then 0 else -1), st')
    /\ io_frame st st' (write_events (sock port) (buf cb) off wlen (pre ++ [WrRet n])).
Proof.
  induction pre as [|x pre IH]; intros fuel wlen off r st n Hp Hw Ho Hsum Hk Hn Hr Hf;
    (destruct fuel as [|fuel]; [cbn [List.length] in Hf; lia|]);
    rewrite flush_loop_step by exact Hp; cbv zeta;
    pose proof (write_count (sock port) (sub_bytes (buf cb) off wlen) st) as [Hc Hor];
    pose proof (write_frame (sock port) (sub_bytes (buf cb) off wlen) st) as F;
    rewrite (next_writes_shift st _ _ Hor Hc) in Hn;
    cbn [app] in Hn.
  - injection Hn as Hhd. rewrite Hhd in F.
    rewrite (write_ret _ _ _ _ Hhd) in *. cbn [fst snd] in *.
    cbn [remaining] in *. unfold CInt.INT_MAX in *.
    rewrite !CIntFacts.to_int_id
      by (unfold CInt.in_int, CInt.INT_MIN, CInt.INT_MAX; lia).
    destruct (Z.ltb_spec 0 n) as [_|]; [|lia].
    cbn [app write_events].
    destruct (Z.eqb_spec (wlen - n) 0) as [E|E];
      destruct (Z.eqb_spec n wlen) as [E'|E']; try lia.
    + eexists. split; [reflexivity | exact F].
    + destruct (Z.ltb_spec (wlen - n) 0) as [_|]; [|lia].
      eexists. split; [reflexivity | exact F].
  - injection Hn as Hhd Htl. rewrite Hhd in F.
    cbn [List.length] in Hf. cbn [keeps_going] in Hk. cbn [remaining] in *.
    cbn [app write_events]. destruct x as [m|e'].
    + apply andb_true_iff in Hk as [Hk Hk'].
      apply andb_true_iff in Hk as [Hn0 Hn1].
      apply Z.ltb_lt in Hn0. apply Z.ltb_lt in Hn1.
      unfold CInt.INT_MAX in *.
      rewrite (write_ret _ _ _ _ Hhd) in *. cbn [fst snd] in *.
      rewrite !CIntFacts.to_int_id
        by (unfold CInt.in_int, CInt.INT_MIN, CInt.INT_MAX; lia).
      destruct (Z.ltb_spec 0 m) as [_|]; [|lia].
      destruct (Z.eqb_spec (wlen - m) 0) as [|_]; [lia|].
      destruct (Z.ltb_spec (wlen - m) 0) as [|_]; [lia|].
      edestruct (IH fuel (wlen - m) (off + m) m) as (st' & Hrun & F');
        try eassumption; try lia.
      exists st'. split; [exact Hrun|].
      exact (io_frame_trans _ _ _ _ _ F F').
    + apply andb_true_iff in Hk as [He' Hk'].
      rewrite (write_err _ _ _ _ Hhd) in *. cbn [fst snd errno set_errno] in *.
      change (CInt.to_int (-1)) with (-1). change (0 <? -1) with false. cbv iota.
      rewrite He'.
      edestruct (IH fuel wlen off (-1)) as (st' & Hrun & F');
        try eassumption; try lia.
      exists st'. split; [exact Hrun|].
      exact (io_frame_trans _ _ _ _ _ F F').
Qed.

Lemma firstn_split_at (l : list Z) : forall n m,
  firstn (n + m) l = firstn n l ++ firstn m (skipn n l).
Proof.
  induction l as [|x l IH]; intros n m.
  - now rewrite skipn_nil, !firstn_nil.
  - destruct n as [|n]; [reflexivity|].
    cbn [Nat.add firstn skipn app]. now rewrite IH.
Qed.

Lemma sub_bytes_split b off n wlen :
  0 <= off -> 0 <= n <= wlen ->
  sub_bytes b off wlen
  = firstn (Z.to_nat n) (sub_bytes b off wlen) ++ sub_bytes b (off + n) (wlen - n).
Proof.
  intros Ho Hn. unfold sub_bytes.
  rewrite firstn_firstn, Nat.min_l by lia.
  replace (Z.to_nat wlen) with (Z.to_nat n + Z.to_nat (wlen - n))%nat at 1 by lia.
  rewrite firstn_split_at, skipn_skipn. do 3 f_equal. lia.
Qed.

Lemma sub_bytes_prefix b off n wlen :
  0 <= n <= wlen ->
  firstn (Z.to_nat n) (sub_bytes b off wlen) = sub_bytes b off n.
Proof.
  intros Hn. unfold sub_bytes. rewrite firstn_firstn, Nat.min_l by lia. reflexivity.
Qed.

(** What the kernel has taken after answers that keep the loop going is
    the part of the message before the bytes that remain. *)
Lemma accepted_keeps_going P fd b : forall pre off wlen tail,
  0 <= off -> 0 < wlen ->
  keeps_going P wlen pre = true ->
  accepted_bytes (write_events fd b off wlen (pre ++ tail))
  = sub_bytes b off (wlen - remaining wlen pre)
    ++ accepted_bytes
         (write_events fd b (off + (wlen - remaining wlen pre))
                       (remaining wlen pre) tail).
Proof.
  induction pre as [|x pre IH]; intros off wlen tail Ho Hw Hk.
  - cbn [app remaining]. rewrite Z.sub_diag, Z.add_0_r.
    unfold sub_bytes at 1. cbn [Z.to_nat firstn app]. reflexivity.
  - cbn [keeps_going] in Hk. cbn [app write_events remaining]. destruct x as [n|e].
    + apply andb_true_iff in Hk as [Hk Hk'].
      apply andb_true_iff in Hk as [Hn0 Hn1].
      apply Z.ltb_lt in Hn0. apply Z.ltb_lt in Hn1.
      cbn [accepted_bytes].
      pose proof (remaining_bounds P pre (wlen - n) ltac:(lia) Hk') as Hr.
      rewrite IH by (try assumption; lia).
      rewrite app_assoc. f_equal.
      * rewrite (sub_bytes_split b off n (wlen - remaining (wlen - n) pre)) by lia.
        rewrite !sub_bytes_prefix by lia.
        do 2 f_equal. lia.
      * do 2 f_equal. lia.
    + apply andb_true_iff in Hk as [_ Hk'].
      cbn [accepted_bytes]. apply IH; assumption.
Qed.

Lemma probe_run_ret P st pre n fuel :
  List.length (stack_buf st) = Z.to_nat WBUFSIZE ->
  plain_transport P (MyProcPort st) ->
  keeps_going P (total_len (dummy_appends P (MyProcPort st))) pre = true ->
  next_writes st (S (List.length pre)) = pre ++ [WrRet n] ->
  remaining (total_len (dummy_appends P (MyProcPort st))) pre <= n <= CInt.INT_MAX ->
  (List.length pre < fuel)%nat ->
  exists st',
    send_dummy_message_to_frontend P fuel st
    = Some ((if n =? remaining (total_len (dummy_appends P (MyProcPort st))) pre
             then 0 else -1), st')
    /\ io_frame st st' (probe_writes P st (pre ++ [WrRet n])).
Proof.
  intros Hs Hp Hk Hn Hr Hf.
  destruct (dummy_message_pos P (MyProcPort st) (stack_buf st) Hs) as [Epos Hlen].
  unfold WBUFSIZE in Hlen.
  unfold send_dummy_message_to_frontend, flush_cbuf, probe_writes. rewrite Epos.
  destruct (Z.eqb_spec (total_len (dummy_appends P (MyProcPort st))) 0) as [|_]; [lia|].
  apply flush_loop_run_ret; try assumption; unfold CInt.INT_MAX; lia.
Qed.

Lemma probe_message_bytes P port stack :
  List.length stack = Z.to_nat WBUFSIZE ->
  sub_bytes (buf (dummy_message P port stack)) 0 (total_len (dummy_appends P port))
  = probe_message P port.
Proof.
  intros Hs.
  destruct (dummy_message_pos P port stack Hs) as [Epos Hlen].
  destruct (append_all_message (dummy_appends P port) stack Hs
              (dummy_appends_readable P port) (proj2 Hlen)) as (_ & _ & R).
  fold (dummy_message P port stack) in R. rewrite Epos in R. exact R.
Qed.

(** X3.  When the kernel takes the message, in one write or in several
    with interruptions in between, the sanity check answers true and the
    handler does, between blocking and unblocking the signals, exactly the
    writes of the probe and then what the scheduler asks of the timer; the
    bytes that the kernel took, put end to end, are the message: the loop
    neither repeats nor skips a byte. *)
Theorem complete_write_is_alive
        (P : Platform) (st : State) (pre : list wresp) (n : Z) (fuel : nat) :
  interrupt_pending_return st = false ->
  plain_transport P (MyProcPort st) ->
  List.length (stack_buf st) = Z.to_nat WBUFSIZE ->
  keeps_going P (total_len (dummy_appends P (MyProcPort st))) pre = true ->
  next_writes st (S (List.length pre)) = pre ++ [WrRet n] ->
  n = remaining (total_len (dummy_appends P (MyProcPort st))) pre ->
  (List.length pre < fuel)%nat ->
  exists st_probe st',
    doSanityCheck P fuel (Host.PG_SETMASK true st) = Some (true, st_probe)
    /\ pg_retire_alarm_handler P fuel st = Some st'
    /\ trace st'
       = trace st ++ [EvSetMask true]
         ++ probe_writes P st (pre ++ [WrRet n])
         ++ rearm_events P st
         ++ [EvSetMask false]
    /\ accepted_bytes (probe_writes P st (pre ++ [WrRet n]))
       = probe_message P (MyProcPort st).
Proof.
  intros Hi Hp Hs Hk Hn Hr Hf.
  destruct (dummy_message_pos P (MyProcPort st) (stack_buf st) Hs) as [Epos Hlen].
  pose proof (remaining_bounds P pre _ (proj1 Hlen) Hk) as Hrem.
  unfold WBUFSIZE in Hlen.
  destruct (probe_run_ret P (Host.PG_SETMASK true st) pre n fuel)
    as (st2 & Hsend & F); try assumption;
    [cbn [Host.PG_SETMASK emit MyProcPort]; unfold CInt.INT_MAX; lia|].
  cbn [Host.PG_SETMASK emit MyProcPort] in Hsend.
  rewrite <- Hr, Z.eqb_refl in Hsend.
  destruct (handler_after_probe P fuel st 0 st2 _ Hi Hsend F)
    as (st' & Hrun & _ & Htrace).
  exists st2, st'. unfold doSanityCheck. rewrite Hsend.
  split; [reflexivity|]. split; [exact Hrun|]. split; [exact Htrace|].
  unfold probe_writes.
  rewrite (accepted_keeps_going P) by (try assumption; lia).
  rewrite <- Hr. cbn [write_events accepted_bytes]. rewrite app_nil_r.
  rewrite Z.add_0_l.
  rewrite <- (probe_message_bytes P (MyProcPort st) (stack_buf st) Hs).
  rewrite (sub_bytes_split _ 0 (total_len (dummy_appends P (MyProcPort st)) - n)
             (total_len (dummy_appends P (MyProcPort st)))) by lia.
  rewrite sub_bytes_prefix by lia. f_equal.
  - symmetry. apply sub_bytes_prefix. lia.
  - f_equal; lia.
Qed.

Lemma complete_write_is_alive_witness :
  let st := backend true 10 false false (port_v2 false) true 5000000
              (fun i => match i with
                        | O => WrRet 20
                        | S O => WrErr 4
                        | _ => WrRet 16
                        end) in
  let msg := [78] ++ cstring PGRETIRE_KEEP_ALIVE_MESSAGE in
  exists st_probe st',
    doSanityCheck linux_x86_64 3 (Host.PG_SETMASK true st) = Some (true, st_probe)
    /\ pg_retire_alarm_handler linux_x86_64 3 st = Some st'
    /\ trace st'
       = [ EvSetMask true;
           EvWrite 7 msg (WrRet 20);
           EvWrite 7 (skipn 20 msg) (WrErr 4);
           EvWrite 7 (skipn 20 msg) (WrRet 16);
           EvEnableTimeoutAfter 8 10000;
           EvSetMask false ]
    /\ accepted_bytes
         [ EvWrite 7 msg (WrRet 20);
           EvWrite 7 (skipn 20 msg) (WrErr 4);
           EvWrite 7 (skipn 20 msg) (WrRet 16) ]
       = msg.
Proof.
  intros st msg.
  apply (complete_write_is_alive linux_x86_64 st [WrRet 20; WrErr 4] 16 3).
  - reflexivity.
  - reflexivity.
  - reflexivity.
  - reflexivity.
  - reflexivity.
  - reflexivity.
  - simpl. lia.
Defined.

(** X4.  A count larger than the bytes that were offered is taken as a
    failure: the sanity check answers false and the handler cancels, as
    after a hard error. *)
Theorem excess_write_count_cancels
        (P : Platform) (st : State) (pre : list wresp) (n : Z) (fuel : nat) :
  interrupt_pending_return st = false ->
  plain_transport P (MyProcPort st) ->
  List.length (stack_buf st) = Z.to_nat WBUFSIZE ->
  keeps_going P (total_len (dummy_appends P (MyProcPort st))) pre = true ->
  next_writes st (S (List.length pre)) = pre ++ [WrRet n] ->
  remaining (total_len (dummy_appends P (MyProcPort st))) pre < n <= CInt.INT_MAX ->
  (List.length pre < fuel)%nat ->
  exists st_probe st',
    doSanityCheck P fuel (Host.PG_SETMASK true st) = Some (false, st_probe)
    /\ pg_retire_alarm_handler P fuel st = Some st'
    /\ trace st'
       = trace st ++ [EvSetMask true]
         ++ probe_writes P st (pre ++ [WrRet n])
         ++ cancel_signals P st
         ++ [EvSetMask false].
Proof.
  intros Hi Hp Hs Hk Hn Hr Hf.
  destruct (probe_run_ret P (Host.PG_SETMASK true st) pre n fuel)
    as (st2 & Hsend & F); try assumption;
    [cbn [Host.PG_SETMASK emit MyProcPort]; lia|].
  cbn [Host.PG_SETMASK emit MyProcPort] in Hsend.
  destruct (Z.eqb_spec n (remaining (total_len (dummy_appends P (MyProcPort st))) pre))
    as [|_]; [lia|].
  destruct (handler_after_probe P fuel st (-1) st2 _ Hi Hsend F)
    as (st' & Hrun & _ & Htrace).
  exists st2, st'. unfold doSanityCheck. rewrite Hsend.
  split; [reflexivity|]. split; [exact Hrun | exact Htrace].
Qed.

Lemma excess_write_count_cancels_witness :
  let st := backend true 10 false false (port_v2 false) true 5000000
              (fun _ => WrRet 40) in
  exists st_probe st',
    doSanityCheck linux_x86_64 1 (Host.PG_SETMASK true st) = Some (false, st_probe)
    /\ pg_retire_alarm_handler linux_x86_64 1 st = Some st'
    /\ trace st'
       = [ EvSetMask true;
           EvWrite 7 ([78] ++ cstring PGRETIRE_KEEP_ALIVE_MESSAGE) (WrRet 40);
           EvKill (-4242) 2;
           EvKill 4242 2;
           EvSetMask false ].
Proof.
  intros st.
  apply (excess_write_count_cancels linux_x86_64 st [] 40 1).
  - reflexivity.
  - reflexivity.
  - reflexivity.
  - reflexivity.
  - reflexivity.
  - unfold CInt.INT_MAX. simpl. lia.
  - simpl. lia.
Defined.

(** X5.  When a write would block after partial writes, the flush still
    reports success, although the kernel has taken only a part of the
    message: the bytes taken are a proper prefix of the message, and the
    bytes that remained are not sent. *)
Theorem would_block_leaves_message_cut
        (P : Platform) (st : State) (pre : list wresp) (e : Z) (fuel : nat) :
  platform_ok P ->
  plain_transport P (MyProcPort st) ->
  List.length (stack_buf st) = Z.to_nat WBUFSIZE ->
  keeps_going P (total_len (dummy_appends P (MyProcPort st))) pre = true ->
  next_writes st (S (List.length pre)) = pre ++ [WrErr e] ->
  would_block P e ->
  (List.length pre < fuel)%nat ->
  let total := total_len (dummy_appends P (MyProcPort st)) in
  let sent := total - remaining total pre in
  exists st',
    send_dummy_message_to_frontend P fuel st = Some (0, st')
    /\ trace st' = trace st ++ probe_writes P st (pre ++ [WrErr e])
    /\ accepted_bytes (probe_writes P st (pre ++ [WrErr e]))
       = firstn (Z.to_nat sent) (probe_message P (MyProcPort st))
    /\ 0 <= sent < total
    /\ total = Z.of_nat (List.length (probe_message P (MyProcPort st))).
Proof.
  intros [Hia Hiw] Hp Hs Hk Hn Hb Hf total sent.
  assert (He : e <> EINTR P) by (destruct Hb; congruence).
  destruct (dummy_message_pos P (MyProcPort st) (stack_buf st) Hs) as [Epos Hlen].
  pose proof (remaining_bounds P pre _ (proj1 Hlen) Hk) as Hrem.
  fold total in Hrem, Hlen.
  destruct (probe_run P st pre e fuel Hs Hp Hk Hn He Hf) as (st' & Hsend & F).
  rewrite (errno_code_would_block P e Hb) in Hsend.
  exists st'. split; [exact Hsend|]. split; [now rewrite F|].
  split; [|split; [subst sent; lia|]].
  - unfold probe_writes.
    rewrite (accepted_keeps_going P) by (try assumption; lia).
    cbn [write_events accepted_bytes]. rewrite app_nil_r.
    rewrite <- (probe_message_bytes P (MyProcPort st) (stack_buf st) Hs).
    fold total. fold sent.
    symmetry. apply sub_bytes_prefix. subst sent. lia.
  - unfold probe_message, total.
    symmetry. apply concat_chunks_length. apply dummy_appends_readable.
Qed.

Lemma would_block_leaves_message_cut_witness :
  let st := backend true 10 false false (port_v3 false) true 5000000
              (fun i => match i with O => WrRet 10 | _ => WrErr 11 end) in
  exists st',
    send_dummy_message_to_frontend linux_x86_64 2 st = Some (0, st')
    /\ accepted_bytes (trace st')
       = [83; 0; 0; 0; 47; 112; 103; 95; 114; 101].
Proof.
  intros st.
  assert (Hok : platform_ok linux_x86_64) by (unfold platform_ok; simpl; lia).
  destruct (would_block_leaves_message_cut linux_x86_64 st [WrRet 10] 11 2 Hok)
    as (st' & Hsend & Ht & Ha & _).
  - reflexivity.
  - reflexivity.
  - reflexivity.
  - reflexivity.
  - left. reflexivity.
  - simpl. lia.
  - exists st'. split; [exact Hsend|]. rewrite Ht. exact Ha.
Defined.

(** ** A write that returns zero *)

(** X6.  A write that returns 0 sets no [errno], and the loop reads it all
    the same: the verdict is taken from the [errno] that the handler was
    entered with.  If that is neither EINTR, EAGAIN nor EWOULDBLOCK the
    client is judged down and the handler cancels; if it is EAGAIN or
    EWOULDBLOCK the client is judged alive. *)
Theorem zero_write_is_judged_by_entry_errno
        (P : Platform) (st : State) (fuel : nat) :
  interrupt_pending_return st = false ->
  plain_transport P (MyProcPort st) ->
  List.length (stack_buf st) = Z.to_nat WBUFSIZE ->
  wr_oracle st (wr_count st) = WrRet 0 ->
  errno st <> EINTR P ->
  exists st_probe st',
    send_dummy_message_to_frontend P (S fuel) (Host.PG_SETMASK true st)
    = Some (errno_code P (errno st), st_probe)
    /\ pg_retire_alarm_handler P (S fuel) st = Some st'
    /\ trace st'
       = trace st ++ [EvSetMask true]
         ++ probe_writes P st [WrRet 0]
         ++ verdict_events P (errno_code P (errno st)) st
         ++ [EvSetMask false].
Proof.
  intros Hi Hp Hs Ho He.
  destruct (dummy_message_pos P (MyProcPort st) (stack_buf st) Hs) as [Epos Hlen].
  set (st1 := Host.PG_SETMASK true st).
  set (cb := dummy_message P (MyProcPort st) (stack_buf st)) in *.
  set (total := total_len (dummy_appends P (MyProcPort st))) in *.
  assert (Ho1 : wr_oracle st1 (wr_count st1) = WrRet 0) by exact Ho.
  pose proof (write_frame (sock (MyProcPort st)) (sub_bytes (buf cb) 0 total) st1) as F.
  rewrite Ho1 in F.
  assert (Hsend : send_dummy_message_to_frontend P (S fuel) st1
                  = Some (errno_code P (errno st),
                          snd (Host.write (sock (MyProcPort st))
                                 (sub_bytes (buf cb) 0 total) st1))).
  { unfold send_dummy_message_to_frontend, flush_cbuf.
    change (MyProcPort st1) with (MyProcPort st).
    change (stack_buf st1) with (stack_buf st). fold cb. rewrite Epos.
    destruct (Z.eqb_spec total 0) as [|_]; [lia|].
    rewrite flush_loop_step by exact Hp. cbv zeta.
    rewrite (write_ret _ _ _ _ Ho1). cbn [fst snd].
    change (CInt.to_int 0) with 0. change (0 <? 0) with false. cbv iota.
    cbn [errno emit next_write]. change (errno st1) with (errno st).
    apply Z.eqb_neq in He. rewrite He. unfold errno_code.
    destruct ((errno st =? EAGAIN P) || (errno st =? EWOULDBLOCK P)); reflexivity. }
  destruct (handler_after_probe P (S fuel) st _ _ _ Hi Hsend F)
    as (st' & Hrun & _ & Htrace).
  eexists. exists st'. split; [exact Hsend|]. split; [exact Hrun | exact Htrace].
Qed.

Lemma zero_write_is_judged_by_entry_errno_witness :
  let st := backend true 10 false false (port_v3 false) true 5000000
              (fun _ => WrRet 0) in
  exists st',
    pg_retire_alarm_handler linux_x86_64 1 st = Some st'
    /\ trace st'
       = [ EvSetMask true;
           EvWrite 7 ([83] ++ be32 47
                      ++ cstring PGRETIRE_DUMMY_PAREMETER_NAME
                      ++ cstring PGRETIRE_DUMMY_PAREMETER_VALUE) (WrRet 0);
           EvKill (-4242) 2;
           EvKill 4242 2;
           EvSetMask false ].
Proof.
  intros st.
  destruct (zero_write_is_judged_by_entry_errno linux_x86_64 st 0)
    as (st_probe & st' & _ & Hrun & Ht).
  - reflexivity.
  - reflexivity.
  - reflexivity.
  - reflexivity.
  - simpl. lia.
  - exists st'. split; [exact Hrun | exact Ht].
Defined.

(** ** The scheduler as time passes *)

Lemma maybeScheduleAlarm_armed P st :
  fst (maybeScheduleAlarm P st) = true ->
  snd (maybeScheduleAlarm P st)
  = armed_after (MILLISECONDS (pg_retire_interval st)) st.
Proof.
  destruct (maybeScheduleAlarm_result P st) as [-> | ->]; cbn [fst snd];
    [reflexivity | discriminate].
Qed.

(** X7.  Once the scheduler has armed a deadline [I] seconds ahead
    ([0 <= I <= 2147483]), a further call is a no-op for as long as the
    clock is short of the deadline: it returns false and changes nothing.
    From the deadline on (the handler not having run), a call arms again,
    [I] seconds from the new now.  With [I = 0] the deadline is now, so
    every call arms again. *)
Theorem maybeScheduleAlarm_waits_for_deadline
        (P : Platform) (st : State) (t : Z) :
  fst (maybeScheduleAlarm P st) = true ->
  0 <= pg_retire_interval st <= 2147483 ->
  0 <= clock st <= t ->
  let us := pg_retire_interval st * 1000 * 1000 in
  let st1 := set_clock t (snd (maybeScheduleAlarm P st)) in
  timeout_fin_time st1 = clock st + us
  /\ (t < clock st + us -> maybeScheduleAlarm P st1 = (false, st1))
  /\ (clock st + us <= t ->
      fst (maybeScheduleAlarm P st1) = true
      /\ timeout_fin_time (snd (maybeScheduleAlarm P st1)) = t + us).
Proof.
  intros Ha Hi Hc us st1. subst us st1.
  assert (Hv : (MyTimeoutId st =? MAX_TIMEOUTS P) = false).
  { destruct (MyTimeoutId st =? MAX_TIMEOUTS P) eqn:E; [|reflexivity].
    unfold maybeScheduleAlarm, TIMEOUT_INVALID in Ha. rewrite E in Ha. discriminate. }
  rewrite (maybeScheduleAlarm_armed P st Ha), (MILLISECONDS_exact _ Hi).
  unfold maybeScheduleAlarm, TIMEOUT_INVALID, Host.get_timeout_indicator,
    Host.get_timeout_finish_time, Host.GetCurrentTimestamp, armed_after,
    Host.enable_timeout_after.
  cbn [set_clock emit set_deadline MyTimeoutId timeout_indicator timeout_fin_time
       clock pg_retire_interval].
  rewrite Hv, (MILLISECONDS_exact _ Hi).
  split; [lia|]. split.
  - intros Hlt.
    destruct (Z.eqb_spec (clock st + pg_retire_interval st * 1000 * 1000) 0) as [|_];
      [lia|].
    destruct (Z.ltb_spec t (clock st + pg_retire_interval st * 1000 * 1000)) as [_|];
      [reflexivity | lia].
  - intros Hge.
    destruct (Z.ltb_spec t (clock st + pg_retire_interval st * 1000 * 1000)) as [|_];
      [lia|].
    rewrite andb_false_r. cbn [fst snd emit set_deadline timeout_fin_time].
    split; [reflexivity | lia].
Qed.

Lemma maybeScheduleAlarm_waits_for_deadline_witness :
  let st := backend true 10 false false (port_v3 false) true 5000000
              (fun _ => WrRet 48) in
  let st1 := set_clock 15000122 (snd (maybeScheduleAlarm linux_x86_64 st)) in
  timeout_fin_time st1 = 15000123
  /\ maybeScheduleAlarm linux_x86_64 st1 = (false, st1).
Proof.
  intros st st1.
  destruct (maybeScheduleAlarm_waits_for_deadline linux_x86_64 st 15000122)
    as (Hf & Hw & _).
  - reflexivity.
  - simpl. lia.
  - simpl. lia.
  - split; [exact Hf|]. apply Hw. simpl. lia.
Defined.

(** ** What the hook never does *)


Lemma call_prev_same st :
  same_backend st (call_prev_post_parse_analyze st)
  /\ wr_count (call_prev_post_parse_analyze st) = wr_count st
  /\ timeout_indicator (call_prev_post_parse_analyze st) = timeout_indicator st
  /\ timeout_fin_time (call_prev_post_parse_analyze st) = timeout_fin_time st.
Proof.
  unfold call_prev_post_parse_analyze, same_backend.
  destruct (prev_post_parse_analyze st); repeat split.
Qed.

(** X8.  The hook that runs after parse analysis never writes to the
    socket, never sends a signal and never touches the signal mask or
    [errno]: whatever the statement and the state, it adds at most the call
    of the previous hook and one request to the timer, and leaves the
    settings, the flags and the count of writes as they were. *)
Theorem post_parse_analyze_is_quiet (P : Platform) (query : Query) (st : State) :
  let st' := pg_retire_post_parse_analyze P query st in
  same_backend st st'
  /\ wr_count st' = wr_count st
  /\ exists tr,
      trace st' = trace st ++ tr
      /\ Forall quiet tr
      /\ (List.length tr <= 2)%nat.
Proof.
  intros st'. subst st'. unfold pg_retire_post_parse_analyze.
  pose proof (call_prev_same st) as (S1 & W1 & _).
  assert (T1 : exists tr, trace (call_prev_post_parse_analyze st) = trace st ++ tr
                          /\ Forall quiet tr /\ (List.length tr <= 1)%nat).
  { unfold call_prev_post_parse_analyze. destruct (prev_post_parse_analyze st).
    - exists [EvPrevHook]. cbn [emit trace List.length].
      split; [reflexivity|]. split; [repeat constructor | lia].
    - exists []. cbn [List.length]. rewrite app_nil_r.
      split; [reflexivity|]. split; [constructor | lia]. }
  destruct T1 as (tr1 & E1 & Q1 & L1).
  set (st1 := call_prev_post_parse_analyze st) in *.
  assert (Hstay : same_backend st st1 /\ wr_count st1 = wr_count st
                  /\ exists tr, trace st1 = trace st ++ tr /\ Forall quiet tr
                                /\ (List.length tr <= 2)%nat).
  { split; [exact S1|]. split; [exact W1|]. exists tr1. repeat split; auto; lia. }
  assert (Harm : same_backend st (snd (maybeScheduleAlarm P st1))
                 /\ wr_count (snd (maybeScheduleAlarm P st1)) = wr_count st
                 /\ exists tr, trace (snd (maybeScheduleAlarm P st1)) = trace st ++ tr
                               /\ Forall quiet tr /\ (List.length tr <= 2)%nat).
  { destruct (maybeScheduleAlarm_result P st1) as [-> | ->]; cbn [snd];
      [|exact Hstay].
    unfold same_backend in *. destruct S1 as (A1 & A2 & A3 & A4 & A5 & A6 & A7 & A8 & A9).
    split; [repeat split; assumption|]. split; [exact W1|].
    eexists. unfold armed_after, Host.enable_timeout_after.
    cbn [emit set_deadline trace]. rewrite E1, <- app_assoc.
    split; [reflexivity|]. split.
    - apply Forall_app. split; [exact Q1 | repeat constructor].
    - rewrite length_app. cbn [List.length]. lia. }
  destruct (TIMEOUT_INVALID P st1 || negb (pg_retire_enable st1)); [exact Hstay|].
  destruct (interrupt_pending_return st1); [exact Hstay|].
  destruct (commandType query); first [exact Harm | exact Hstay].
Qed.

(** ** Authentication *)

(** X9.  The authentication hook registers the timeout at most once.  A
    failed authentication registers nothing.  A successful one, with no
    timeout registered yet, takes the id that the host hands out, after
    which the timeout is valid and no later call registers again, whatever
    the host would answer; if the host has no id left the call does not
    return (the backend exits at level FATAL).  With a timeout registered
    already, the call only chains to the previous hook. *)
Theorem client_authentication_registers_once
        (P : Platform) (prev : bool) (reg : option Z) (status : Z) (st : State) :
  let chained := if prev then emit EvPrevHook st else st in
  (status <> STATUS_OK \/ MyTimeoutId st <> MAX_TIMEOUTS P ->
   pg_retire_ClientAuthentication P prev reg status st = Some chained)
  /\ (status = STATUS_OK -> MyTimeoutId st = MAX_TIMEOUTS P -> reg = None ->
      pg_retire_ClientAuthentication P prev reg status st = None)
  /\ (forall id,
         status = STATUS_OK -> MyTimeoutId st = MAX_TIMEOUTS P ->
         reg = Some id -> id < MAX_TIMEOUTS P ->
         pg_retire_ClientAuthentication P prev reg status st
         = Some (set_timeout_id id chained)
         /\ TIMEOUT_INVALID P (set_timeout_id id chained) = false
         /\ forall prev' reg' status',
             pg_retire_ClientAuthentication P prev' reg' status'
               (set_timeout_id id chained)
             = Some (if prev' then emit EvPrevHook (set_timeout_id id chained)
                     else set_timeout_id id chained)).
Proof.
  intros chained.
  assert (Hid : MyTimeoutId chained = MyTimeoutId st)
    by (subst chained; now destruct prev).
  unfold pg_retire_ClientAuthentication, TIMEOUT_INVALID. fold chained.
  rewrite Hid. split; [|split].
  - intros [Hs | Hv].
    + apply Z.eqb_neq in Hs. now rewrite Hs.
    + apply Z.eqb_neq in Hv. rewrite Hv. now destruct (status =? STATUS_OK).
  - intros -> -> ->. now rewrite !Z.eqb_refl.
  - intros id -> -> -> Hlt. rewrite !Z.eqb_refl.
    split; [reflexivity|].
    assert (Hne : (id =? MAX_TIMEOUTS P) = false) by (apply Z.eqb_neq; lia).
    split; [cbn [set_timeout_id MyTimeoutId]; exact Hne|].
    intros prev' reg' status'.
    unfold pg_retire_ClientAuthentication, TIMEOUT_INVALID.
    replace (MyTimeoutId (if prev' then emit EvPrevHook (set_timeout_id id chained)
                          else set_timeout_id id chained)) with id
      by (now destruct prev').
    rewrite Hne. now destruct (status' =? STATUS_OK).
Qed.

Lemma client_authentication_registers_once_witness :
  let st := set_timeout_id 18
              (backend true 10 false false (port_v3 false) false 0 (fun _ => WrRet 48)) in
  pg_retire_ClientAuthentication linux_x86_64 false (Some 8) STATUS_OK st
  = Some (set_timeout_id 8 st)
  /\ pg_retire_ClientAuthentication linux_x86_64 false (Some 9) STATUS_OK
       (set_timeout_id 8 st)
     = Some (set_timeout_id 8 st)
  /\ pg_retire_ClientAuthentication linux_x86_64 false (Some 8) 1 st = Some st.
Proof.
  intros st.
  destruct (client_authentication_registers_once linux_x86_64 false (Some 8)
              STATUS_OK st) as (_ & _ & H).
  destruct (H 8 eq_refl eq_refl eq_refl ltac:(simpl; lia)) as (H1 & _ & H2).
  split; [exact H1|]. split; [exact (H2 false (Some 9) STATUS_OK)|].
  apply (proj1 (client_authentication_registers_once linux_x86_64 false (Some 8) 1 st)).
  left. discriminate.
Defined.

(** X10.  Nothing is armed before authentication: while no timeout is
    registered the hook after parse analysis only chains to the previous
    hook.  After a successful authentication, with the watchdog enabled and
    no interrupt pending, the first statement that is no utility statement
    arms the deadline [MILLISECONDS(interval)] from now under the id that
    was registered. *)
Theorem first_statement_after_authentication_arms
        (P : Platform) (prev : bool) (id : Z) (query : Query) (st : State) :
  MyTimeoutId st = MAX_TIMEOUTS P ->
  id < MAX_TIMEOUTS P ->
  pg_retire_enable st = true ->
  interrupt_pending_return st = false ->
  timeout_indicator st = false ->
  timeout_fin_time st = 0 ->
  commandType query <> CMD_UTILITY ->
  pg_retire_post_parse_analyze P query st = call_prev_post_parse_analyze st
  /\ exists st1,
      pg_retire_ClientAuthentication P prev (Some id) STATUS_OK st = Some st1
      /\ trace (pg_retire_post_parse_analyze P query st1)
         = trace st
           ++ (if prev then [EvPrevHook] else [])
           ++ (if prev_post_parse_analyze st then [EvPrevHook] else [])
           ++ [EvEnableTimeoutAfter id (MILLISECONDS (pg_retire_interval st))]
      /\ timeout_fin_time (pg_retire_post_parse_analyze P query st1)
         = clock st + MILLISECONDS (pg_retire_interval st) * 1000.
Proof.
  intros Hinv Hlt Hen Hi Hf Hz Hq.
  assert (Hne : (id =? MAX_TIMEOUTS P) = false) by (apply Z.eqb_neq; lia).
  split.
  - unfold pg_retire_post_parse_analyze, TIMEOUT_INVALID.
    replace (MyTimeoutId (call_prev_post_parse_analyze st)) with (MAX_TIMEOUTS P)
      by (unfold call_prev_post_parse_analyze;
          now destruct (prev_post_parse_analyze st)).
    now rewrite Z.eqb_refl.
  - eexists. split.
    + unfold pg_retire_ClientAuthentication, TIMEOUT_INVALID.
      replace (MyTimeoutId (if prev then emit EvPrevHook st else st))
        with (MAX_TIMEOUTS P) by (now destruct prev).
      rewrite !Z.eqb_refl. reflexivity.
    + unfold interrupt_pending_return in Hi.
      unfold pg_retire_post_parse_analyze, call_prev_post_parse_analyze,
        maybeScheduleAlarm, TIMEOUT_INVALID, interrupt_pending_return,
        Host.get_timeout_indicator, Host.get_timeout_finish_time,
        Host.GetCurrentTimestamp, Host.enable_timeout_after.
      destruct prev; destruct (prev_post_parse_analyze st) eqn:Ep;
        cbn [set_timeout_id emit set_deadline prev_post_parse_analyze MyTimeoutId
             pg_retire_enable ParallelMessagePending InterruptPending
             timeout_indicator timeout_fin_time clock pg_retire_interval trace];
        rewrite ?Ep;
        cbn [set_timeout_id emit set_deadline prev_post_parse_analyze MyTimeoutId
             pg_retire_enable ParallelMessagePending InterruptPending
             timeout_indicator timeout_fin_time clock pg_retire_interval trace];
        rewrite Hne, Hen, Hi, Hf, Hz; cbn [negb orb andb Z.eqb];
        destruct (commandType query); try contradiction;
        cbn [snd emit set_deadline set_timeout_id trace timeout_fin_time clock];
        rewrite <- ?app_assoc; cbn [app]; split; reflexivity.
Qed.

Lemma first_statement_after_authentication_arms_witness :
  let st := set_timeout_id 18
              (backend true 10 false false (port_v3 false) false 0 (fun _ => WrRet 48)) in
  let q := {| commandType := CMD_SELECT |} in
  pg_retire_post_parse_analyze linux_x86_64 q st = st
  /\ exists st1,
      pg_retire_ClientAuthentication linux_x86_64 false (Some 8) STATUS_OK st = Some st1
      /\ trace (pg_retire_post_parse_analyze linux_x86_64 q st1)
         = [EvEnableTimeoutAfter 8 10000]
      /\ timeout_fin_time (pg_retire_post_parse_analyze linux_x86_64 q st1) = 15000123.
Proof.
  intros st q.
  apply (first_statement_after_authentication_arms linux_x86_64 false 8 q st).
  - reflexivity.
  - simpl. lia.
  - reflexivity.
  - reflexivity.
  - reflexivity.
  - reflexivity.
  - discriminate.
Defined.

(** ** The protocol 2 message *)

Lemma notice_readable msg :
  1 + (strlen msg + 1) <= WBUFSIZE ->
  Forall (fun c => readable (fst c) (snd c)) (notice_appends msg).
Proof.
  intros H. assert (0 <= strlen msg) by (unfold strlen; lia).
  unfold notice_appends.
  repeat constructor; cbn [fst snd];
    try (apply readable_literal; lia);
    unfold readable, CInt.PTRDIFF_MAX; simpl; lia.
Qed.

Lemma notice_wire msg stack :
  List.length stack = Z.to_nat WBUFSIZE ->
  1 + (strlen msg + 1) <= WBUFSIZE ->
  let cb := append_all {| buf := stack; pos := 0 |} (notice_appends msg) in
  pos cb = 1 + (strlen msg + 1)
  /\ sub_bytes (buf cb) 0 (pos cb) = [78] ++ str_bytes msg ++ [0].
Proof.
  intros Hs Hfit cb.
  assert (0 <= strlen msg) by (unfold strlen; lia).
  destruct (append_all_message (notice_appends msg) stack Hs
              (notice_readable msg Hfit)) as (_ & R2 & R3).
  { unfold notice_appends, total_len. cbn [fold_right snd].
    rewrite sizeof_lit_strlen. lia. }
  fold cb in R2, R3. split.
  - rewrite R2. unfold notice_appends, total_len. cbn [fold_right snd].
    rewrite sizeof_lit_strlen. lia.
  - rewrite R3. unfold notice_appends. cbn [map List.concat].
    rewrite chunk_literal, app_nil_r, cstring_bytes. reflexivity.
Qed.

(** X11.  Under protocol 2 (any major below 3) the message that the
    transmitter has built when it flushes is the tag ['N'] followed by the
    text of the notice and its terminating NUL, 36 bytes in all, whatever
    the stack held. *)
Theorem dummy_message_notice (P : Platform) (port : Port) (stack : list Z) :
  List.length stack = Z.to_nat WBUFSIZE ->
  Host.PG_PROTOCOL_MAJOR (proto port) < 3 ->
  let cb := dummy_message P port stack in
  pos cb = 36
  /\ sub_bytes (buf cb) 0 (pos cb)
     = [78] ++ str_bytes PGRETIRE_KEEP_ALIVE_MESSAGE ++ [0].
Proof.
  intros Hs Hv2 cb. subst cb. unfold dummy_message, dummy_appends.
  destruct (Z.leb_spec 3 (Host.PG_PROTOCOL_MAJOR (proto port))) as [|_]; [lia|].
  apply (notice_wire PGRETIRE_KEEP_ALIVE_MESSAGE stack Hs).
  vm_compute. discriminate.
Qed.

Lemma dummy_message_notice_witness :
  let cb := dummy_message linux_x86_64 (port_v2 false) (repeat 170 128) in
  pos cb = 36
  /\ sub_bytes (buf cb) 0 (pos cb)
     = [78; 107; 101; 101; 112; 32; 97; 108; 105; 118; 101; 32; 99; 104;
        101; 99; 107; 105; 110; 103; 32; 102; 114; 111; 109; 32; 112; 103;
        95; 114; 101; 116; 105; 114; 101; 0].
Proof.
  apply (dummy_message_notice linux_x86_64 (port_v2 false) (repeat 170 128)).
  - reflexivity.
  - vm_compute. reflexivity.
Defined.

(** ** An append that does not fit *)

Lemma append_all_app calls1 : forall cb calls2,
  append_all cb (calls1 ++ calls2) = append_all (append_all cb calls1) calls2.
Proof.
  induction calls1 as [|[src len] calls1 IH]; intros cb calls2; [reflexivity|].
  cbn [app append_all]. apply IH.
Qed.

Lemma append_results_app calls1 : forall cb calls2,
  append_results cb (calls1 ++ calls2)
  = append_results cb calls1 ++ append_results (append_all cb calls1) calls2.
Proof.
  induction calls1 as [|[src len] calls1 IH]; intros cb calls2; [reflexivity|].
  cbn [app append_results append_all]. now rewrite IH.
Qed.

(** X12.  The results of [write_cbuf] are not looked at, so an append that
    does not fit is left out and the message goes on without it.  With a
    parameter name that fits and a value that does not, the buffer holds
    the tag, the length and the name only, while the length field still
    counts the value: the message announces more bytes than it has. *)
Theorem value_that_does_not_fit_is_left_out
        (P : Platform) (name value : string) (stack : list Z) :
  List.length stack = Z.to_nat WBUFSIZE ->
  1 + 4 + (strlen name + 1) <= WBUFSIZE ->
  WBUFSIZE < 1 + 4 + (strlen name + 1) + (strlen value + 1) ->
  strlen value <= 1073741824 ->
  let calls := parameter_status_appends P name value in
  let cb := append_all {| buf := stack; pos := 0 |} calls in
  append_results {| buf := stack; pos := 0 |} calls = [1; 4; strlen name + 1; -1]
  /\ pos cb = 1 + 4 + (strlen name + 1)
  /\ sub_bytes (buf cb) 0 (pos cb)
     = [83] ++ be32 (strlen name + 1 + (strlen value + 1) + 4)
       ++ str_bytes name ++ [0].
Proof.
  intros Hs Hfit Hover Hbound calls cb. subst cb calls.
  assert (0 <= strlen name /\ 0 <= strlen value) as [Hn Hv] by (unfold strlen; lia).
  unfold WBUFSIZE in *.
  unfold parameter_status_appends.
  set (plen := CInt.to_int
                 (Host.htonl P (CInt.to_int (sizeof_lit name + sizeof_lit value + 4)))).
  set (first3 := [(cstring "S", 1); (Host.int_bytes P plen, 4);
                  (cstring name, sizeof_lit name)]).
  change [(cstring "S", 1); (Host.int_bytes P plen, 4);
          (cstring name, sizeof_lit name); (cstring value, sizeof_lit value)]
    with (first3 ++ [(cstring value, sizeof_lit value)]).
  assert (Hr3 : Forall (fun c => readable (fst c) (snd c)) first3).
  { subst first3. repeat constructor; cbn [fst snd];
      try (apply readable_literal; unfold WBUFSIZE; lia);
      unfold readable, CInt.PTRDIFF_MAX; rewrite ?int_bytes_length; simpl; lia. }
  assert (Ht3 : total_len first3 = 1 + 4 + (strlen name + 1)).
  { subst first3. unfold total_len. cbn [fold_right snd].
    rewrite sizeof_lit_strlen. lia. }
  destruct (append_all_fits first3 {| buf := stack; pos := 0 |}
              (fresh_cbuf_ok stack Hs) Hr3) as (R1 & R2 & R3 & R4).
  { cbn [pos]. rewrite Ht3. unfold WBUFSIZE. lia. }
  cbn [pos buf] in R2, R3. rewrite Z.add_0_l in R2.
  set (cb3 := append_all {| buf := stack; pos := 0 |} first3) in *.
  assert (Hrv : readable (cstring value) (sizeof_lit value)).
  { unfold readable, CInt.PTRDIFF_MAX. rewrite sizeof_lit_strlen.
    pose proof (sizeof_lit_strlen value) as E. unfold sizeof_lit in E. lia. }
  assert (Hfail : write_cbuf cb3 (cstring value) (sizeof_lit value) = (cb3, -1)).
  { apply write_cbuf_fail; [exact R4 | exact Hrv|].
    rewrite R2, Ht3, sizeof_lit_strlen. unfold WBUFSIZE. lia. }
  rewrite append_results_app, append_all_app. fold cb3.
  cbn [append_results append_all]. rewrite Hfail. cbn [fst snd].
  split; [|split].
  - rewrite R1. subst first3. cbn [map snd app].
    now rewrite sizeof_lit_strlen.
  - now rewrite R2.
  - rewrite R2, R3. cbn [Z.to_nat firstn app].
    rewrite <- (concat_chunks_length first3 Hr3), sub_bytes_head.
    subst first3. cbn [map List.concat].
    rewrite chunk_literal, chunk_plen, app_nil_r.
    subst plen. rewrite !sizeof_lit_strlen.
    rewrite htonl_bytes by (unfold CInt.INT_MAX; lia).
    rewrite cstring_bytes. reflexivity.
Qed.

Lemma value_that_does_not_fit_is_left_out_witness :
  let value := String.concat EmptyString (repeat "0123456789"%string 13) in
  let calls := parameter_status_appends linux_x86_64 "k" value in
  let cb := append_all {| buf := repeat 0 128; pos := 0 |} calls in
  append_results {| buf := repeat 0 128; pos := 0 |} calls = [1; 4; 2; -1]
  /\ pos cb = 7
  /\ sub_bytes (buf cb) 0 (pos cb) = [83; 0; 0; 0; 137; 107; 0].
Proof.
  intros value calls cb.
  apply (value_that_does_not_fit_is_left_out linux_x86_64 "k" value (repeat 0 128)).
  - reflexivity.
  - vm_compute. discriminate.
  - vm_compute. reflexivity.
  - vm_compute. discriminate.
Defined.

(** ** The handler on an SSL port *)

Lemma ssl_send_dummy_silent P fuel st code st2 :
  USE_SSL P && ssl_in_use (MyProcPort st) = true ->
  send_dummy_message_to_frontend P fuel st = Some (code, st2) ->
  st2 = st.
Proof.
  intros Hs. unfold send_dummy_message_to_frontend, flush_cbuf.
  destruct (pos (dummy_message P (MyProcPort st) (stack_buf st)) =? 0).
  - intros H. now injection H as _ <-.
  - apply flush_loop_ssl_silent. exact Hs.
Qed.

(** X13.  On a port that uses SSL the handler never writes to the socket:
    whenever it returns, what it has added to the trace is nothing, or the
    two mask changes with only the verdict between them. *)
Theorem ssl_handler_never_writes (P : Platform) (fuel : nat) (st st' : State) :
  USE_SSL P && ssl_in_use (MyProcPort st) = true ->
  pg_retire_alarm_handler P fuel st = Some st' ->
  exists tr,
    trace st' = trace st ++ tr
    /\ Forall (fun ev => is_write ev = false) tr
    /\ (tr = [] \/ exists code,
           tr = [EvSetMask true] ++ verdict_events P code st ++ [EvSetMask false]).
Proof.
  intros Hs H. destruct (interrupt_pending_return st) eqn:Hi.
  - unfold pg_retire_alarm_handler in H. rewrite Hi in H. injection H as <-.
    exists []. rewrite app_nil_r. split; [reflexivity|]. split; [constructor | now left].
  - destruct (send_dummy_message_to_frontend P fuel (Host.PG_SETMASK true st))
      as [[code st2]|] eqn:Hsend.
    + pose proof (ssl_send_dummy_silent P fuel (Host.PG_SETMASK true st) code st2
                    Hs Hsend) as ->.
      destruct (handler_after_probe P fuel st code _ [] Hi Hsend (io_frame_refl _))
        as (st'' & Hrun & _ & Htrace).
      rewrite Hrun in H. injection H as <-.
      exists ([EvSetMask true] ++ verdict_events P code st ++ [EvSetMask false]).
      split; [exact Htrace|]. split; [|right; now exists code].
      unfold verdict_events, rearm_events, cancel_signals.
      destruct (code =? 0); destruct (fst (maybeScheduleAlarm P st));
        destruct (HAVE_SETSID P); repeat constructor.
    + unfold pg_retire_alarm_handler, doSanityCheck in H.
      rewrite Hi, Hsend in H. discriminate.
Qed.

Lemma ssl_handler_never_writes_witness :
  let st := backend true 10 false false (port_v3 true) true 5000000
              (fun _ => WrRet 48) in
  exists st' tr,
    pg_retire_alarm_handler linux_x86_64 1 st = Some st'
    /\ trace st' = trace st ++ tr
    /\ Forall (fun ev => is_write ev = false) tr.
Proof.
  intros st.
  destruct (pg_retire_alarm_handler linux_x86_64 1 st) as [st'|] eqn:E;
    [|vm_compute in E; discriminate].
  destruct (ssl_handler_never_writes linux_x86_64 1 st st' eq_refl E)
    as (tr & Ht & Hw & _).
  exists st', tr. auto.
Defined.

(** X14.  On an SSL port, if the value that [r] happens to hold is not
    positive and [errno] is EINTR when the handler is entered, the handler
    never returns: the loop of [flush_cbuf] goes round without writing and
    without changing either, whatever the fuel. *)
Theorem ssl_handler_spins (P : Platform) (st : State) :
  interrupt_pending_return st = false ->
  USE_SSL P && ssl_in_use (MyProcPort st) = true ->
  List.length (stack_buf st) = Z.to_nat WBUFSIZE ->
  stack_r st <= 0 ->
  errno st = EINTR P ->
  forall fuel, pg_retire_alarm_handler P fuel st = None.
Proof.
  intros Hi Hs Hl Hr He fuel.
  destruct (dummy_message_pos P (MyProcPort st) (stack_buf st) Hl) as [Epos Hlen].
  unfold pg_retire_alarm_handler, doSanityCheck, send_dummy_message_to_frontend,
    flush_cbuf.
  rewrite Hi.
  change (MyProcPort (Host.PG_SETMASK true st)) with (MyProcPort st).
  change (stack_buf (Host.PG_SETMASK true st)) with (stack_buf st).
  change (stack_r (Host.PG_SETMASK true st)) with (stack_r st).
  rewrite Epos.
  destruct (Z.eqb_spec (total_len (dummy_appends P (MyProcPort st))) 0) as [|_]; [lia|].
  rewrite (ssl_flush_spins P) by assumption. reflexivity.
Qed.

Lemma ssl_handler_spins_witness :
  pg_retire_alarm_handler linux_x86_64 1000
    (set_errno 4 (backend true 10 false false (port_v3 true) true 5000000
                    (fun _ => WrRet 48)))
  = None.
Proof.
  apply (ssl_handler_spins linux_x86_64
           (set_errno 4 (backend true 10 false false (port_v3 true) true 5000000
                           (fun _ => WrRet 48)))).
  - reflexivity.
  - reflexivity.
  - reflexivity.
  - simpl. lia.
  - reflexivity.
Defined.

(** ** The deadline after an alive verdict *)

Lemma doSanityCheck_true P fuel st st2 :
  doSanityCheck P fuel st = Some (true, st2) ->
  send_dummy_message_to_frontend P fuel st = Some (0, st2).
Proof.
  unfold doSanityCheck.
  destruct (send_dummy_message_to_frontend P fuel st) as [[code s]|]; [|discriminate].
  destruct (Z.eqb_spec code 0) as [->|]; cbn [negb]; intros H;
    [now injection H as -> | discriminate].
Qed.

(** X15.  When the timer has fired, the timeout is registered and the
    sanity check answers true, the handler clears the fired indicator and
    arms the next deadline exactly [I] seconds from now, for every interval
    [0 <= I <= 2147483]; the request to the timer and the unblocking of the
    signals are the last two things it does. *)
Theorem alive_verdict_rearms_interval
        (P : Platform) (fuel : nat) (st st2 : State) :
  interrupt_pending_return st = false ->
  doSanityCheck P fuel (Host.PG_SETMASK true st) = Some (true, st2) ->
  MyTimeoutId st <> MAX_TIMEOUTS P ->
  timeout_indicator st = true ->
  0 <= pg_retire_interval st <= 2147483 ->
  exists st',
    pg_retire_alarm_handler P fuel st = Some st'
    /\ timeout_indicator st' = false
    /\ timeout_fin_time st' = clock st + pg_retire_interval st * 1000 * 1000
    /\ trace st'
       = trace st2
         ++ [EvEnableTimeoutAfter (MyTimeoutId st) (pg_retire_interval st * 1000);
             EvSetMask false].
Proof.
  intros Hi Hd Hv Hf Hint.
  pose proof (doSanityCheck_true _ _ _ _ Hd) as Hsend.
  destruct (send_dummy_frame _ _ _ _ _ Hsend) as (tr & _ & F).
  destruct (io_frame_fields _ _ _ F) as (E1 & E2 & E3 & E4 & E5 & _).
  cbn [Host.PG_SETMASK emit MyTimeoutId timeout_indicator timeout_fin_time clock
       pg_retire_interval] in E1, E2, E3, E4, E5.
  apply Z.eqb_neq in Hv.
  eexists. unfold pg_retire_alarm_handler. rewrite Hi, Hd.
  split; [reflexivity|].
  unfold maybeScheduleAlarm, TIMEOUT_INVALID, Host.get_timeout_indicator,
    Host.enable_timeout_after.
  rewrite E1, E2, E5, Hv, Hf, (MILLISECONDS_exact _ Hint).
  cbn [snd set_errno Host.PG_SETMASK emit set_deadline timeout_indicator
       timeout_fin_time trace].
  rewrite E4, <- app_assoc. repeat split.
Qed.

Lemma alive_verdict_rearms_interval_witness :
  let st := backend true 2147483 false false (port_v3 false) true 5000000
              (fun _ => WrRet 48) in
  exists st',
    pg_retire_alarm_handler linux_x86_64 1 st = Some st'
    /\ timeout_indicator st' = false
    /\ timeout_fin_time st' = 5000123 + 2147483000000.
Proof.
  intros st.
  destruct (alive_verdict_rearms_interval linux_x86_64 1 st
              (snd (Host.write 7 ([83] ++ be32 47
                                   ++ cstring PGRETIRE_DUMMY_PAREMETER_NAME
                                   ++ cstring PGRETIRE_DUMMY_PAREMETER_VALUE)
                      (Host.PG_SETMASK true st))))
    as (st' & Hrun & Hind & Hfin & _).
  - reflexivity.
  - vm_compute. reflexivity.
  - vm_compute. discriminate.
  - reflexivity.
  - simpl. lia.
  - exists st'. split; [exact Hrun|]. split; [exact Hind | exact Hfin].
Defined.

(** ** Loading and unloading *)



(** ** Appends one after the other *)

(** X17.  A run of appends whose bytes all fit behind the cursor behaves as
    one append of the chunks put end to end: every call returns its [len],
    the cursor moves by the sum, the chunks stand in order from the old
    cursor on, and the bytes before the old cursor and after the new one
    are untouched. *)
Theorem appends_concatenate (cb : CharBuffer) (calls : list (list Z * Z)) :
  cbuf_ok cb ->
  Forall (fun c => readable (fst c) (snd c)) calls ->
  pos cb + total_len calls <= WBUFSIZE ->
  let cb' := append_all cb calls in
  append_results cb calls = map snd calls
  /\ pos cb' = pos cb + total_len calls
  /\ sub_bytes (buf cb') (pos cb) (total_len calls) = List.concat (map chunk calls)
  /\ sub_bytes (buf cb') 0 (pos cb) = sub_bytes (buf cb) 0 (pos cb)
  /\ skipn (Z.to_nat (pos cb')) (buf cb') = skipn (Z.to_nat (pos cb')) (buf cb)
  /\ cbuf_ok cb'.
Proof.
  intros Hc Hr Hfit cb'. subst cb'.
  destruct (append_all_fits calls cb Hc Hr Hfit) as (R1 & R2 & R3 & R4).
  pose proof (total_len_nonneg calls Hr) as Hnn.
  pose proof (concat_chunks_length calls Hr) as Hcl.
  destruct Hc as [Hlen Hp]. unfold WBUFSIZE in *.
  set (pre := firstn (Z.to_nat (pos cb)) (buf cb)) in *.
  set (mid := List.concat (map chunk calls)) in *.
  set (post := skipn (Z.to_nat (pos cb + total_len calls)) (buf cb)) in *.
  assert (Hpre : List.length pre = Z.to_nat (pos cb))
    by (unfold pre; rewrite length_firstn; lia).
  split; [exact R1|]. split; [exact R2|]. rewrite R2, R3.
  split; [|split; [|split; [|exact R4]]].
  - replace (pos cb) with (Z.of_nat (List.length pre)) by lia.
    rewrite <- Hcl. apply sub_bytes_window.
  - replace (pos cb) with (Z.of_nat (List.length pre)) at 1 by lia.
    rewrite sub_bytes_head.
    unfold sub_bytes, pre. cbn [Z.to_nat skipn]. reflexivity.
  - rewrite app_assoc.
    replace (Z.to_nat (pos cb + total_len calls))
      with (List.length (pre ++ mid) + 0)%nat at 1
      by (rewrite length_app, Hpre; lia).
    rewrite (skipn_app_exact (pre ++ mid) post _ 0 eq_refl). reflexivity.
Qed.

Lemma appends_concatenate_witness :
  let cb := {| buf := repeat 0 128; pos := 120 |} in
  let calls := [([1; 2; 3], 3); ([4; 5; 6; 7; 8], 5)] in
  append_results cb calls = [3; 5]
  /\ pos (append_all cb calls) = 128
  /\ sub_bytes (buf (append_all cb calls)) 120 8 = [1; 2; 3; 4; 5; 6; 7; 8].
Proof.
  intros cb calls.
  destruct (appends_concatenate cb calls) as (R1 & R2 & R3 & _).
  - subst cb. unfold cbuf_ok, WBUFSIZE. cbn [buf pos].
    split; [reflexivity | lia].
  - subst calls. unfold readable, CInt.PTRDIFF_MAX.
    repeat constructor; simpl; lia.
  - subst cb calls. unfold WBUFSIZE, total_len. cbn [pos fold_right snd]. lia.
  - split; [exact R1|]. split; [exact R2 | exact R3].
Defined.

(** ** After a cancellation *)






(** ** Interrupted without end *)

Lemma flush_loop_all_interrupted P cb port : forall fuel wlen off r st,
  plain_transport P port ->
  (forall i, wr_oracle st (wr_count st + i)%nat = WrErr (EINTR P)) ->
  flush_loop P fuel cb port wlen off r st = None.
Proof.
  induction fuel as [|fuel IH]; intros wlen off r st Hp Ho; [reflexivity|].
  rewrite flush_loop_step by exact Hp. cbv zeta.
  pose proof (Ho 0%nat) as H0. rewrite Nat.add_0_r in H0.
  pose proof (write_count (sock port) (sub_bytes (buf cb) off wlen) st) as [Hc Hor].
  rewrite (write_err _ _ _ _ H0) in *. cbn [fst snd errno set_errno] in *.
  change (CInt.to_int (-1)) with (-1). change (0 <? -1) with false. cbv iota.
  rewrite Z.eqb_refl. apply IH; [exact Hp|].
  intros i. rewrite Hor, Hc. specialize (Ho (S i)).
  now rewrite Nat.add_succ_r in Ho.
Qed.

(** X19.  The loop puts no bound on its retries: on a port that is written
    to, if every write is interrupted (EINTR), the handler writes again and
    again and never returns, whatever the fuel. *)
Theorem interrupted_writes_are_retried_without_bound
        (P : Platform) (st : State) :
  interrupt_pending_return st = false ->
  plain_transport P (MyProcPort st) ->
  List.length (stack_buf st) = Z.to_nat WBUFSIZE ->
  (forall i, wr_oracle st (wr_count st + i)%nat = WrErr (EINTR P)) ->
  forall fuel, pg_retire_alarm_handler P fuel st = None.
Proof.
  intros Hi Hp Hl Ho fuel.
  destruct (dummy_message_pos P (MyProcPort st) (stack_buf st) Hl) as [Epos Hlen].
  unfold pg_retire_alarm_handler, doSanityCheck, send_dummy_message_to_frontend,
    flush_cbuf.
  rewrite Hi.
  change (MyProcPort (Host.PG_SETMASK true st)) with (MyProcPort st).
  change (stack_buf (Host.PG_SETMASK true st)) with (stack_buf st).
  rewrite Epos.
  destruct (Z.eqb_spec (total_len (dummy_appends P (MyProcPort st))) 0) as [|_]; [lia|].
  rewrite (flush_loop_all_interrupted P); [reflexivity | exact Hp | exact Ho].
Qed.

Lemma interrupted_writes_are_retried_without_bound_witness :
  pg_retire_alarm_handler linux_x86_64 500
    (backend true 10 false false (port_v3 false) true 5000000 (fun _ => WrErr 4))
  = None.
Proof.
  apply (interrupted_writes_are_retried_without_bound linux_x86_64
           (backend true 10 false false (port_v3 false) true 5000000
              (fun _ => WrErr 4))).
  - reflexivity.
  - reflexivity.
  - reflexivity.
  - intros i. reflexivity.
Defined.
